(** * cloud-run-mcp: tool filter, CLI options and log pipeline

    A shallow embedding of the JavaScript modules of the server

    - [lib/cli-args.js]      ([parseCliArgs]),
    - [lib/tool-registry.js] ([LOCAL_TOOLS], [REMOTE_TOOLS], [createToolFilter]),
    - [lib/gcp-logs.js]      ([getLogs], [buildTimeRangeFilter], [formatLogEntry],
                              [formatLogsAsTable], [formatLogsForDisplay]),
    - [tools.js]             ([registerTools], [registerToolsRemote] and the
                              handlers of the tools),
    - [index.js]             ([getServer]),

    followed by the properties proved about them.

    JavaScript strings are sequences of UTF-16 code units; an exception is
    an explicit [Throw] outcome; the primitives of the platform that the
    modules call ([split], [trim], [padEnd], [Date], ...) follow ECMA-262.
    The modules the server calls and that are not modelled (the logging
    client, the Cloud Run and project backends, [minimist]) appear as
    parameters. *)

From Stdlib Require Import String Ascii ZArith NArith List Bool Lia DecimalString.
Import ListNotations.
Open Scope list_scope.

Set Implicit Arguments.

(* ================================================================== *)
(** ** JavaScript strings *)

Module Js.

(** A UTF-16 code unit, and a string as the list of its code units:
    [s.length] is [List.length s]. *)
Definition char16 := N.
Definition jsstring := list char16.

(** Embedding of an ASCII literal. *)
Definition str (s : string) : jsstring :=
  List.map N_of_ascii (list_ascii_of_string s).

Arguments str s%_string.

(** The double quote character, code unit 34. *)
Definition dquote : jsstring := [34%N].

Fixpoint eqb_str (a b : jsstring) : bool :=
  match a, b with
  | [], [] => true
  | x :: a', y :: b' => N.eqb x y && eqb_str a' b'
  | _, _ => false
  end.

(** [s] is truthy: a string is falsy exactly when it is empty. *)
Definition str_truthy (s : jsstring) : bool :=
  match s with [] => false | _ :: _ => true end.

(** An optional string argument ([undefined] or a string) used as a
    condition. *)
Definition opt_truthy (o : option jsstring) : bool :=
  match o with Some s => str_truthy s | None => false end.

(** [Array.prototype.includes] on an array of strings. *)
Definition includes (l : list jsstring) (x : jsstring) : bool :=
  existsb (eqb_str x) l.

(** [Array.prototype.join]. *)
Fixpoint join (sep : jsstring) (l : list jsstring) : jsstring :=
  match l with
  | [] => []
  | [x] => x
  | x :: rest => x ++ sep ++ join sep rest
  end.

(** [String.prototype.split] with a one-unit separator: the result always
    has at least one element. *)
Fixpoint split (sep : char16) (s : jsstring) : list jsstring :=
  match s with
  | [] => [[]]
  | c :: s' =>
      if N.eqb c sep then [] :: split sep s'
      else match split sep s' with
           | w :: ws => (c :: w) :: ws
           | [] => [[c]]
           end
  end.

(** WhiteSpace and LineTerminator code points of ECMA-262, the ones
    [String.prototype.trim] strips. *)
Definition is_white (c : char16) : bool :=
  ((9 <=? c) && (c <=? 13) || (c =? 32) || (c =? 160) || (c =? 5760)
   || (8192 <=? c) && (c <=? 8202) || (c =? 8232) || (c =? 8233)
   || (c =? 8239) || (c =? 8287) || (c =? 12288) || (c =? 65279))%N.

Fixpoint trimStart (s : jsstring) : jsstring :=
  match s with
  | c :: s' => if is_white c then trimStart s' else s
  | [] => []
  end.

Definition trimEnd (s : jsstring) : jsstring := rev (trimStart (rev s)).

Definition trim (s : jsstring) : jsstring := trimEnd (trimStart s).

(** [s.substring(0, n)]. *)
Definition substring0 (n : nat) (s : jsstring) : jsstring := firstn n s.

(** [s.padEnd(n)]: spaces are appended until the length is [n]. *)
Definition padEnd (n : nat) (s : jsstring) : jsstring :=
  s ++ repeat 32%N (n - length s).

(** [c.repeat(n)] for a one-unit string. *)
Definition repeat_char (c : char16) (n : nat) : jsstring := repeat c n.

(** [Math.max(h, ...l)] on lengths. *)
Definition max_of (h : nat) (l : list nat) : nat := fold_left Nat.max l h.

(** [t] occurs in [s] at some position ([s.includes(t)]). *)
Definition occurs (t s : jsstring) : Prop :=
  exists pre post, s = pre ++ t ++ post.

(** Executable counterpart of [occurs]. *)
Fixpoint prefixb (t s : jsstring) : bool :=
  match t, s with
  | [], _ => true
  | x :: t', y :: s' => N.eqb x y && prefixb t' s'
  | _ :: _, [] => false
  end.

Fixpoint occursb (t s : jsstring) : bool :=
  prefixb t s ||
  match s with
  | [] => false
  | _ :: s' => occursb t s'
  end.

(** *** Exceptions *)

Inductive error_kind := Error | RangeError | TypeError | ReferenceError.

Record js_error := mkError { err_kind : error_kind; err_message : jsstring }.

(** The outcome of running a piece of code: a value, or a thrown error. *)
Inductive completion (A : Type) : Type :=
| Normal (a : A)
| Throw (e : js_error).

Arguments Normal {A} a.
Arguments Throw {A} e.

Definition bind {A B} (m : completion A) (k : A -> completion B) : completion B :=
  match m with
  | Normal a => k a
  | Throw e => Throw e
  end.

Definition throws {A} (m : completion A) : Prop :=
  exists e, m = Throw e.

(** [try { body } catch (error) { handler }] *)
Definition try_catch {A} (body : completion A) (handler : js_error -> completion A)
    : completion A :=
  match body with
  | Normal a => Normal a
  | Throw error => handler error
  end.

End Js.

Import Js.

Notation "x <- m ;; k" := (bind m (fun x => k))
  (at level 61, m at next level, right associativity).
Notation "m ;;; k" := (bind m (fun _ => k))
  (at level 61, right associativity).

(* ================================================================== *)
(** ** lib/cli-args.js *)

Module CliArgs.

(** A value [minimist] leaves under an option that is declared in
    [string]: a string when the option is given once (the empty string when
    it has no value), [false] for the negated spelling
    ([--no-enabled-tools]), an array of the values when the option is given
    more than once, an object for a dotted key ([--enabled-tools.x]).
    [minimist] builds no function, so no property of an array or of an
    object can be called. *)
#[warnings="-register-all"]
Inductive arg_value :=
| arg_string (s : jsstring)
| arg_false
| arg_array (items : list arg_value)
| arg_object.

(** What [minimist] hands back for the two options (the underscore
    spellings are aliases of the same keys): [undefined], here [None], when
    the option is not given, and its value otherwise. *)
Record minimist_args := {
  arg_enabled_tools : option arg_value;
  arg_disabled_tools : option arg_value
}.

(** The returned configuration: each list is [null] or an array. *)
Record cli_config := {
  enabledTools : option (list jsstring);
  disabledTools : option (list jsstring)
}.

Definition comma : char16 := 44%N.

(** [v.split(',').map(t => t.trim()).filter(t => t.length > 0)] *)
Definition parse_tool_list (v : jsstring) : list jsstring :=
  filter (fun t => Nat.ltb 0 (length t)) (List.map trim (split comma v)).

(** [x && x.length > 0] for a list that may be [null]. *)
Definition list_nonempty (o : option (list jsstring)) : bool :=
  match o with
  | Some l => Nat.ltb 0 (length l)
  | None => false
  end.

Definition both_flags_message : jsstring :=
  str "Cannot specify both --enabled-tools and --disabled-tools. Please use only one.".

(** An option value used as a condition. *)
Definition arg_truthy (value : option arg_value) : bool :=
  match value with
  | None => false
  | Some (arg_string s) => str_truthy s
  | Some arg_false => false
  | Some (arg_array _) => true
  | Some arg_object => true
  end.

(** The TypeError of calling a property that is not a function, with the
    text V8 gives it. *)
Definition not_a_function (callee : jsstring) : js_error :=
  mkError TypeError (callee ++ str " is not a function").

(** [args[key] ? args[key].split(',').map(...).filter(...) : null]: only a
    string has a [split] method. *)
Definition tool_list (key : jsstring) (value : option arg_value)
    : completion (option (list jsstring)) :=
  if arg_truthy value then
    match value with
    | Some (arg_string s) => Normal (Some (parse_tool_list s))
    | _ => Throw (not_a_function (str "args." ++ key ++ str ".split"))
    end
  else Normal None.

Definition parseCliArgs (args : minimist_args) : completion cli_config :=
  enabledTools <- tool_list (str "enabled-tools") (arg_enabled_tools args) ;;
  disabledTools <- tool_list (str "disabled-tools") (arg_disabled_tools args) ;;
  if list_nonempty enabledTools && list_nonempty disabledTools
  then Throw (mkError Error both_flags_message)
  else Normal {| enabledTools := enabledTools; disabledTools := disabledTools |}.

End CliArgs.

(* ================================================================== *)
(** ** lib/tool-registry.js *)

Module ToolRegistry.

Import CliArgs.

Definition LOCAL_TOOLS : list jsstring :=
  [ str "list_projects";
    str "create_project";
    str "list_services";
    str "get_service";
    str "get_service_log";
    str "deploy_local_files";
    str "deploy_local_folder";
    str "deploy_file_contents" ].

Definition REMOTE_TOOLS : list jsstring :=
  [ str "list_services";
    str "get_service";
    str "get_service_log";
    str "deploy_file_contents" ].

Definition availableTools (isRemote : bool) : list jsstring :=
  if isRemote then REMOTE_TOOLS else LOCAL_TOOLS.

Definition mode (isRemote : bool) : jsstring :=
  if isRemote then str "remote" else str "local".

Definition list_of (o : option (list jsstring)) : list jsstring :=
  match o with Some l => l | None => [] end.

(** The names of [tools] that are not in the catalog:
    [tools.filter(tool => !availableTools.includes(tool))]. *)
Definition invalid_names (isRemote : bool) (tools : list jsstring) : list jsstring :=
  filter (fun tool => negb (includes (availableTools isRemote) tool)) tools.

(** The message of the error thrown for the option [flag]. *)
Definition invalid_message (flag : jsstring) (invalid : list jsstring)
    (isRemote : bool) : jsstring :=
  (str "Invalid tool names in " ++ flag ++ str ": "
     ++ join (str ", ") invalid ++ str ". ")
  ++ (str "Available tools in " ++ mode isRemote ++ str " mode: "
     ++ join (str ", ") (availableTools isRemote)).

(** The closure returned by [createToolFilter]. *)
Definition shouldRegisterTool (enabledTools disabledTools : option (list jsstring))
    (toolName : jsstring) : bool :=
  if list_nonempty enabledTools then includes (list_of enabledTools) toolName
  else if list_nonempty disabledTools then negb (includes (list_of disabledTools) toolName)
  else true.

Definition createToolFilter (enabledTools disabledTools : option (list jsstring))
    (isRemote : bool) : completion (jsstring -> bool) :=
  (if list_nonempty enabledTools then
     let invalidEnabled := invalid_names isRemote (list_of enabledTools) in
     if Nat.ltb 0 (length invalidEnabled)
     then Throw (mkError Error
                   (invalid_message (str "--enabled-tools") invalidEnabled isRemote))
     else Normal tt
   else Normal tt) ;;;
  (if list_nonempty disabledTools then
     let invalidDisabled := invalid_names isRemote (list_of disabledTools) in
     if Nat.ltb 0 (length invalidDisabled)
     then Throw (mkError Error
                   (invalid_message (str "--disabled-tools") invalidDisabled isRemote))
     else Normal tt
   else Normal tt) ;;;
  Normal (shouldRegisterTool enabledTools disabledTools).

Definition getAvailableToolsList (isRemote : bool) : jsstring :=
  str "Available tools in " ++ mode isRemote ++ str " mode: "
    ++ join (str ", ") (availableTools isRemote).

End ToolRegistry.

(* ================================================================== *)
(** ** Numbers and dates of the platform *)

Module JsDate.

Local Open Scope Z_scope.

(** The Number values the time arithmetic of [buildTimeRangeFilter] can
    reach: integer-valued doubles, the infinities and NaN. *)
Inductive number := Fin (z : Z) | PosInf | NegInf | NaN.

(** Rounding of an exact integer result to the nearest double (ties to
    even), overflowing to an infinity from 2^1024 on. *)
Definition round_double (z : Z) : number :=
  let a := Z.abs z in
  if a <? 2 ^ 53 then Fin z
  else
    let s := Z.log2 a - 52 in
    let q := a / 2 ^ s in
    let r := a mod 2 ^ s in
    let half := 2 ^ (s - 1) in
    let q' := if (half <? r) || ((r =? half) && Z.odd q) then q + 1 else q in
    let m := q' * 2 ^ s in
    if 2 ^ 1024 <=? m then (if z <? 0 then NegInf else PosInf)
    else Fin (Z.sgn z * m).

(** [x * k] for a positive integer constant [k]. *)
Definition mul_const (x : number) (k : Z) : number :=
  match x with
  | Fin z => round_double (z * k)
  | PosInf => PosInf
  | NegInf => NegInf
  | NaN => NaN
  end.

(** [t - x] for a finite integer [t]. *)
Definition sub_from (t : Z) (x : number) : number :=
  match x with
  | Fin z => round_double (t - z)
  | PosInf => NegInf
  | NegInf => PosInf
  | NaN => NaN
  end.

Definition is_digit (c : char16) : bool := ((48 <=? c) && (c <=? 57))%N.

(** The integer a string of decimal digits denotes. *)
Definition digits_value (ds : jsstring) : Z :=
  fold_left (fun acc c => 10 * acc + (Z.of_N c - 48)) ds 0.

(** [parseInt(ds)] on a string of decimal digits. *)
Definition parseInt (ds : jsstring) : number := round_double (digits_value ds).

(** *** Number::toString

    The decimal digits of a natural number. *)
Definition digits_of (a : Z) : jsstring :=
  str (DecimalString.NilEmpty.string_of_uint (N.to_uint (Z.to_N a))).

(** The double [a] is the Number value of the real [v]. *)
Definition reads_as (v a : Z) : bool :=
  match round_double v with
  | Fin m => m =? a
  | _ => false
  end.

(** For a positive integer-valued double [a], the integers [s] and [n] of
    Number::toString: [s] has the least number of digits [k] for which
    [s * 10^(n-k)] reads as [a]; of two such [s] the one nearest to [a],
    and the even one when they are as near.  The candidates with [k]
    digits are the two multiples of [10^(n0-k)] around [a], for [n0] the
    number of digits of [a]; seventeen digits always suffice. *)
Fixpoint shortest_from (fuel : nat) (k : Z) (a n0 : Z) : Z * Z :=
  match fuel with
  | O => (a, n0)
  | S fuel' =>
      let p := 10 ^ (n0 - k) in
      let lo := a / p in
      let hi := lo + 1 in
      let ok_lo := reads_as (lo * p) a in
      let ok_hi := reads_as (hi * p) a in
      if ok_lo || ok_hi then
        let dlo := a - lo * p in
        let dhi := hi * p - a in
        let s :=
          if ok_lo && ok_hi then
            (if dlo <? dhi then lo
             else if dhi <? dlo then hi
             else if Z.even lo then lo else hi)
          else if ok_lo then lo else hi in
        if s =? 10 ^ k then (10 ^ (k - 1), n0 + 1) else (s, n0)
      else shortest_from fuel' (k + 1) a n0
  end.

Definition shortest_digits (a : Z) : Z * Z :=
  shortest_from 17 1 a (Z.of_nat (length (digits_of a))).

(** Number::toString in radix 10 of a positive integer-valued double: the
    digits of [s] and [n - k] zeros up to 21 digits, the exponent form from
    there on. *)
Definition positive_to_string (a : Z) : jsstring :=
  let '(s, n) := shortest_digits a in
  let ds := digits_of s in
  if n <=? 21 then ds ++ repeat 48%N (Z.to_nat n - length ds)
  else
    match ds with
    | [] => []
    | d :: [] => [d] ++ str "e+" ++ digits_of (n - 1)
    | d :: rest => [d] ++ str "." ++ rest ++ str "e+" ++ digits_of (n - 1)
    end.

Definition number_to_string (x : number) : jsstring :=
  match x with
  | Fin z =>
      if z =? 0 then str "0"
      else if z <? 0 then str "-" ++ positive_to_string (- z)
      else positive_to_string z
  | PosInf => str "Infinity"
  | NegInf => str "-Infinity"
  | NaN => str "NaN"
  end.

(** A Date object: a time value in milliseconds since the epoch, or the
    invalid date. *)
Inductive date := ValidDate (t : Z) | InvalidDate.

Definition max_time : Z := 8640000000000000.

(** [new Date(n)]: TimeClip keeps a finite value of magnitude at most
    8.64e15 and makes everything else the invalid date. *)
Definition Date_of (n : number) : date :=
  match n with
  | Fin z => if Z.abs z <=? max_time then ValidDate z else InvalidDate
  | _ => InvalidDate
  end.

Definition ms_per_day : Z := 86400000.

(** Proleptic Gregorian (year, month, day) of a day number counted from
    1970-01-01. *)
Definition civil_of_days (days : Z) : Z * Z * Z :=
  let z := days + 719468 in
  let era := z / 146097 in
  let doe := z - era * 146097 in
  let yoe := (doe - doe / 1460 + doe / 36524 - doe / 146096) / 365 in
  let y := yoe + era * 400 in
  let doy := doe - (365 * yoe + yoe / 4 - yoe / 100) in
  let mp := (5 * doy + 2) / 153 in
  let d := doy - (153 * mp + 2) / 5 + 1 in
  let m := if mp <? 10 then mp + 3 else mp - 9 in
  (if m <=? 2 then y + 1 else y, m, d).

(** The [w] low decimal digits of [n], most significant first. *)
Fixpoint digits_fixed (w : nat) (n : Z) : jsstring :=
  match w with
  | O => []
  | S w' => digits_fixed w' (n / 10) ++ [(48 + Z.to_N (n mod 10))%N]
  end.

(** The year of an ISO string: four digits from 0 to 9999, a sign and six
    digits otherwise. *)
Definition iso_year (y : Z) : jsstring :=
  if (0 <=? y) && (y <=? 9999) then digits_fixed 4 y
  else (if y <? 0 then str "-" else str "+") ++ digits_fixed 6 (Z.abs y).

(** [YYYY-MM-DDTHH:mm:ss.sssZ] of a time value. *)
Definition iso_string (t : Z) : jsstring :=
  let '(y, m, d) := civil_of_days (t / ms_per_day) in
  let ms := t mod ms_per_day in
  iso_year y ++ str "-" ++ digits_fixed 2 m ++ str "-" ++ digits_fixed 2 d
    ++ str "T" ++ digits_fixed 2 (ms / 3600000)
    ++ str ":" ++ digits_fixed 2 (ms / 60000 mod 60)
    ++ str ":" ++ digits_fixed 2 (ms / 1000 mod 60)
    ++ str "." ++ digits_fixed 3 (ms mod 1000) ++ str "Z".

(** [Date.prototype.toISOString]: a RangeError on the invalid date. *)
Definition toISOString (d : date) : completion jsstring :=
  match d with
  | ValidDate t => Normal (iso_string t)
  | InvalidDate => Throw (mkError RangeError (str "Invalid time value"))
  end.

End JsDate.

(* ================================================================== *)
(** ** lib/gcp-logs.js *)

Module GcpLogs.

Import JsDate.

(** *** [buildTimeRangeFilter] *)

Definition unit_h : char16 := 104%N.
Definition unit_m : char16 := 109%N.
Definition unit_d : char16 := 100%N.

(** The longest prefix of digits, and what follows it. *)
Fixpoint span_digits (s : jsstring) : jsstring * jsstring :=
  match s with
  | c :: s' =>
      if is_digit c then let (ds, rest) := span_digits s' in (c :: ds, rest)
      else ([], s)
  | [] => ([], [])
  end.

(** [timeRange.match(/^(\d+)([hmd])$/)]: the two captured groups, or [None]
    when there is no match. *)
Definition match_time_range (timeRange : jsstring) : option (jsstring * char16) :=
  match span_digits timeRange with
  | ((_ :: _) as amount, [unit]) =>
      if (N.eqb unit unit_h || N.eqb unit unit_m || N.eqb unit unit_d)%bool
      then Some (amount, unit)
      else None
  | _ => None
  end.

(** [now] is the time value of [new Date()].  The result is the clause, or
    [None] for the [null] returned on a token that does not match (the
    warnings written to the console are not modelled). *)
Definition buildTimeRangeFilter (now : Z) (timeRange : jsstring)
    : completion (option jsstring) :=
  match match_time_range timeRange with
  | None => Normal None
  | Some (amount, unit) =>
      let value := parseInt amount in
      let startTime :=
        if N.eqb unit unit_h then
          Some (Date_of (sub_from now (mul_const (mul_const (mul_const value 60) 60) 1000)))
        else if N.eqb unit unit_d then
          Some (Date_of (sub_from now
                  (mul_const (mul_const (mul_const (mul_const value 24) 60) 60) 1000)))
        else if N.eqb unit unit_m then
          Some (Date_of (sub_from now (mul_const (mul_const value 60) 1000)))
        else None in
      match startTime with
      | None => Normal None
      | Some startTime =>
          iso <- toISOString startTime ;;
          Normal (Some (str "timestamp>=" ++ dquote ++ iso ++ dquote))
      end
  end.

(** *** [getLogs] *)

(** The [options] argument; [None] is a property that is [undefined]. *)
Record log_options := {
  filter : option jsstring;
  resourceType : option jsstring;
  severity : option jsstring;
  timeRange : option jsstring;
  limit : option Z;
  orderBy : option jsstring;
  pageToken : option jsstring
}.

(** The request handed to [loggingClient.getEntries]. *)
Record request_options := {
  req_filter : jsstring;
  req_orderBy : jsstring;
  req_pageSize : Z;
  req_pageToken : option jsstring
}.

(** A destructuring default: [x = d] takes [d] when [x] is [undefined]. *)
Definition default {A} (d : A) (x : option A) : A :=
  match x with Some v => v | None => d end.

(** [filterParts.push(x)] *)
Definition push (filterParts : list jsstring) (x : jsstring) : list jsstring :=
  filterParts ++ [x].

(** The filter query of [getLogs]: the statements from [let filterQuery]
    to [filterParts.join(' AND ')]. *)
Definition filterQuery (now : Z) (options : log_options) : completion jsstring :=
  let severity := default (str "DEFAULT") (severity options) in
  let filterParts := [] in
  let filterParts :=
    match filter options with
    | Some f => if str_truthy f then push filterParts (str "(" ++ f ++ str ")")
                else filterParts
    | None => filterParts
    end in
  let filterParts :=
    match resourceType options with
    | Some rt => if str_truthy rt
                 then push filterParts (str "resource.type=" ++ dquote ++ rt ++ dquote)
                 else filterParts
    | None => filterParts
    end in
  let filterParts :=
    if str_truthy severity && negb (eqb_str severity (str "DEFAULT"))
    then push filterParts (str "severity>=" ++ severity)
    else filterParts in
  filterParts <-
    match timeRange options with
    | Some tr =>
        if str_truthy tr then
          timeFilter <- buildTimeRangeFilter now tr ;;
          Normal (match timeFilter with
                  | Some tf => if str_truthy tf then push filterParts tf else filterParts
                  | None => filterParts
                  end)
        else Normal filterParts
    | None => Normal filterParts
    end ;;
  Normal (join (str " AND ") filterParts).

(** The request [getLogs] prepares: the filter query, the order and the
    capped page size, and the page token when one was given. *)
Definition requestOptions (now : Z) (options : log_options)
    : completion request_options :=
  let limit := default 100%Z (limit options) in
  let orderBy := default (str "timestamp desc") (orderBy options) in
  filterQuery <- filterQuery now options ;;
  Normal {| req_filter := filterQuery;
            req_orderBy := orderBy;
            req_pageSize := Z.min limit 1000;
            req_pageToken := if opt_truthy (pageToken options)
                             then pageToken options else None |}.

(** *** Normalized log entries and their rendering *)

Record http_info := {
  http_method : jsstring;
  http_url : jsstring;
  http_status : jsstring
}.

(** The fields of a formatted log entry that the renderers read. *)
Record log_entry := {
  timestamp : jsstring;
  entry_severity : jsstring;
  entry_resourceType : jsstring;
  httpRequest : option http_info;
  logData : jsstring
}.

(** The payload of a raw entry, with what the decoders the source calls
    give for it: the audit-log decoding of protobuf data (which may fail),
    the JSON text of an object, the text of a plain value. *)
Inductive raw_data :=
| DataProto (decoded : option jsstring)
| DataObject (json : jsstring)
| DataText (text : jsstring)
| DataNone.

Record raw_entry := {
  meta_timestamp : option Z;
  meta_severity : option jsstring;
  meta_resource_type : option jsstring;
  meta_httpRequest : option http_info;
  data : raw_data
}.

Definition or_else (x : option jsstring) (d : jsstring) : jsstring :=
  match x with
  | Some s => if str_truthy s then s else d
  | None => d
  end.

Definition formatLogEntry (entry : raw_entry) : log_entry :=
  {| timestamp := match meta_timestamp entry with
                  | Some t => iso_string t
                  | None => str "N/A"
                  end;
     entry_severity := or_else (meta_severity entry) (str "DEFAULT");
     entry_resourceType := or_else (meta_resource_type entry) (str "unknown");
     httpRequest := meta_httpRequest entry;
     logData := match data entry with
                | DataProto (Some rendered) => rendered
                | DataProto None => str "[Binary/Protobuf data]"
                | DataObject json => json
                | DataText text => text
                | DataNone => []
                end |}.

(** What [loggingClient.getEntries] resolves to, as far as [getLogs]
    reads it: the entries, and the [nextPageToken] of the API response. *)
Record entries_response := {
  entries : list raw_entry;
  api_nextPageToken : option jsstring
}.

(** The result of [getLogs]. *)
Record logs_result := {
  result_logs : list log_entry;
  result_nextPageToken : option jsstring;
  result_totalCount : nat;
  result_query : jsstring
}.

(** [getLogs], with the logging client's [getEntries] as a parameter.
    The [catch] block logs the error and throws it again. *)
Definition getLogs (getEntries : request_options -> completion entries_response)
    (now : Z) (options : log_options) : completion logs_result :=
  try_catch
    (request <- requestOptions now options ;;
     response <- getEntries request ;;
     Normal {| result_logs := List.map formatLogEntry (entries response);
               result_nextPageToken := api_nextPageToken response;
               result_totalCount := length (entries response);
               result_query := req_filter request |})
    (fun error => Throw error).

Definition headers : list jsstring :=
  [str "Timestamp"; str "Severity"; str "Resource"; str "Message"].

(** One row of the table: the four cells of an entry. *)
Definition row_of (entry : log_entry) : list jsstring :=
  [ substring0 19 (timestamp entry);
    entry_severity entry;
    entry_resourceType entry;
    substring0 100 (logData entry)
      ++ (if Nat.ltb 100 (length (logData entry)) then str "..." else []) ].

(** [l.map((x, i) => f x i)] *)
Fixpoint mapi_from {A B} (i : nat) (f : A -> nat -> B) (l : list A) : list B :=
  match l with
  | [] => []
  | x :: l' => f x i :: mapi_from (S i) f l'
  end.

Definition mapi {A B} (f : A -> nat -> B) (l : list A) : list B := mapi_from 0 f l.

(** [row[i]] *)
Definition cell (row : list jsstring) (i : nat) : jsstring := nth i row [].

Definition colWidths (rows : list (list jsstring)) : list nat :=
  mapi (fun header i =>
          max_of (length header) (List.map (fun row => length (cell row i)) rows))
       headers.

Definition format_row (widths : list nat) (row : list jsstring) : jsstring :=
  join (str " | ") (mapi (fun c i => padEnd (nth i widths 0%nat) c) row).

Definition no_logs : jsstring := str "No logs found.".

Definition newline : jsstring := [10%N].

Definition formatLogsAsTable (logEntries : list log_entry) : jsstring :=
  if Nat.eqb (length logEntries) 0 then no_logs
  else
    let rows := List.map row_of logEntries in
    let colWidths := colWidths rows in
    let headerRow := format_row colWidths headers in
    let separator :=
      join (str "-+-") (List.map (fun width => repeat_char 45%N width) colWidths) in
    let dataRows := List.map (format_row colWidths) rows in
    join newline (headerRow :: separator :: dataRows).

Inductive display_format := FormatText | FormatJson | FormatTable.

Definition text_line (entry : log_entry) : jsstring :=
  let resourceInfo :=
    if eqb_str (entry_resourceType entry) (str "unknown") then []
    else str " [" ++ entry_resourceType entry ++ str "]" in
  let httpInfo :=
    match httpRequest entry with
    | Some h => str " " ++ http_method h ++ str " " ++ http_status h
                  ++ str " " ++ http_url h
    | None => []
    end in
  str "[" ++ timestamp entry ++ str "] [" ++ entry_severity entry ++ str "]"
    ++ resourceInfo ++ httpInfo ++ str " " ++ logData entry.

(** [stringify] stands for [JSON.stringify(logEntries, null, 2)]. *)
Definition formatLogsForDisplay (stringify : list log_entry -> jsstring)
    (logEntries : list log_entry) (format : display_format) : jsstring :=
  if Nat.eqb (length logEntries) 0 then no_logs
  else match format with
       | FormatJson => stringify logEntries
       | FormatTable => formatLogsAsTable logEntries
       | FormatText => join newline (List.map text_line logEntries)
       end.

End GcpLogs.

(* ================================================================== *)
(** ** tools.js *)

Module Tools.

Import CliArgs ToolRegistry GcpLogs.

(** *** Values and payloads *)

(** The values a handler can be invoked with.  A number is integer-valued
    and given by an integer, of which it is the nearest double.  An object
    is an element of [files]: the schemas of the tools name no property
    but [filename] and [content], each of which is here any value,
    [undefined] when the property is missing. *)
#[warnings="-register-all"]
Inductive jsval :=
| VUndefined
| VNull
| VBool (b : bool)
| VNumber (z : Z)
| VString (s : jsstring)
| VArray (items : list jsval)
| VObject (filename content : jsval).

Definition decimal_nat (n : nat) : jsstring :=
  str (DecimalString.NilEmpty.string_of_uint (Nat.to_uint n)).

(** String conversion, as done by a template literal. *)
Fixpoint to_string (v : jsval) : jsstring :=
  match v with
  | VUndefined => str "undefined"
  | VNull => str "null"
  | VBool true => str "true"
  | VBool false => str "false"
  | VNumber z => JsDate.number_to_string (JsDate.round_double z)
  | VString s => s
  | VArray items =>
      join (str ",")
        (List.map (fun x => match x with
                            | VUndefined | VNull => []
                            | _ => to_string x
                            end) items)
  | VObject _ _ => str "[object Object]"
  end.

(** [typeof v === 'string'] *)
Definition is_string (v : jsval) : bool :=
  match v with VString _ => true | _ => false end.

(** [typeof v === 'object' && Array.isArray(v)] *)
Definition is_array (v : jsval) : bool :=
  match v with VArray _ => true | _ => false end.

Definition items_of (v : jsval) : list jsval :=
  match v with VArray items => items | _ => [] end.

Definition truthy (v : jsval) : bool :=
  match v with
  | VUndefined | VNull => false
  | VBool b => b
  | VNumber z => negb (Z.eqb z 0)
  | VString s => str_truthy s
  | VArray _ | VObject _ _ => true
  end.

(** The two properties the handlers read from a file. *)
Inductive file_key := key_filename | key_content.

Definition key_name (key : file_key) : jsstring :=
  match key with
  | key_filename => str "filename"
  | key_content => str "content"
  end.

(** The TypeError of reading a property of [undefined] or [null], with the
    text V8 gives it. *)
Definition cannot_read (base : jsstring) (key : file_key) : js_error :=
  mkError TypeError
    (str "Cannot read properties of " ++ base ++ str " (reading '"
       ++ key_name key ++ str "')").

(** [v.filename] and [v.content]: the property of an object, a TypeError
    on [undefined] and [null], and [undefined] on every other value, none
    of which has such a property. *)
Definition prop (v : jsval) (key : file_key) : completion jsval :=
  match v with
  | VUndefined => Throw (cannot_read (str "undefined") key)
  | VNull => Throw (cannot_read (str "null") key)
  | VObject filename content =>
      Normal (match key with
              | key_filename => filename
              | key_content => content
              end)
  | VBool _ | VNumber _ | VString _ | VArray _ => Normal VUndefined
  end.

(** What a handler returns: [{ content: [{ type: 'text', text }] }]. *)
Record payload := text_content { text : jsstring }.

(** [error.message || error] inside a template literal. *)
Definition message_or_error (error : js_error) : jsstring :=
  if str_truthy (err_message error) then err_message error
  else match err_kind error with
       | Error => str "Error"
       | RangeError => str "RangeError"
       | TypeError => str "TypeError"
       | ReferenceError => str "ReferenceError"
       end.

(** *** The registration guards *)

(** The server a tool is registered on, as the list of registered names
    in registration order. *)
Definition server := list jsstring.

(** [server.tool(name, ...)] *)
Definition tool (s : server) (name : jsstring) : server := s ++ [name].

(** [!toolFilter || toolFilter(name)] with [toolFilter] defaulting to
    [null]. *)
Definition permits (toolFilter : option (jsstring -> bool)) (name : jsstring) : bool :=
  match toolFilter with
  | None => true
  | Some f => f name
  end.

Definition register_if (toolFilter : option (jsstring -> bool)) (name : jsstring)
    (s : server) : server :=
  if permits toolFilter name then tool s name else s.

Definition registerTools (s : server) (toolFilter : option (jsstring -> bool)) : server :=
  let s := register_if toolFilter (str "list_projects") s in
  let s := register_if toolFilter (str "create_project") s in
  let s := register_if toolFilter (str "list_services") s in
  let s := register_if toolFilter (str "get_service") s in
  let s := register_if toolFilter (str "get_service_log") s in
  let s := register_if toolFilter (str "get_logs") s in
  let s := register_if toolFilter (str "get_log_resource_types") s in
  let s := register_if toolFilter (str "deploy_local_files") s in
  let s := register_if toolFilter (str "deploy_local_folder") s in
  let s := register_if toolFilter (str "deploy_file_contents") s in
  s.

Definition no_project_message : jsstring :=
  str "Cannot register remote tools: GCP project ID could not be determined. Please ensure GOOGLE_CLOUD_PROJECT environment variable is set or the server is running on GCP.".

Definition registerToolsRemote (s : server) (defaultProjectId : option jsstring)
    (toolFilter : option (jsstring -> bool)) : completion server :=
  let currentProject := defaultProjectId in
  if negb (opt_truthy currentProject)
  then Throw (mkError Error no_project_message)
  else
    let s := register_if toolFilter (str "list_services") s in
    let s := register_if toolFilter (str "get_service") s in
    let s := register_if toolFilter (str "get_service_log") s in
    let s := register_if toolFilter (str "get_logs") s in
    let s := register_if toolFilter (str "get_log_resource_types") s in
    let s := register_if toolFilter (str "deploy_file_contents") s in
    Normal s.

(** *** The handlers

    A handler is an async function: an exception it lets escape rejects the
    promise handed to the registration layer, and is the [Throw] outcome
    here.  The backend modules are parameters of the handlers.  The
    handlers of [registerTools] come first, with the remote variant of
    [deploy_file_contents]; the other handlers of [registerToolsRemote],
    which take the project from the server, follow them. *)

Section Handlers.

(** A Cloud Run service as [listServices] and [getService] return it. *)
Record service_info := {
  service_name : jsstring;
  service_uri : jsstring;
  service_lastModifier : jsstring
}.

(** A page of [getServiceLogs]: the log text of the page, and the request
    options for the next page when there is one. *)
Record log_page (request : Type) := {
  logs : option jsstring;
  next_requestOptions : option request
}.

(** The arguments of [deploy]. *)
Record deploy_request := {
  projectId : jsval;
  serviceName : jsval;
  region : jsval;
  files : jsval;
  skipIamCheck : bool
}.

Variable listProjects : completion (list jsstring).
Variable createProjectAndAttachBilling : jsval -> completion jsval.
Variable listServices : jsval -> jsval -> completion (list service_info).
Variable getService : jsval -> jsval -> jsval -> completion (option service_info).
Variable getResourceTypes : jsval -> completion (list jsstring).
Variable deploy : deploy_request -> completion jsstring.
Variable skipIamCheck_flag : bool.

(** [listProjects] resolves to the projects, given here by their ids. *)
Definition list_projects : completion payload :=
  try_catch
    (projects <- listProjects ;;
     Normal (text_content
               (str "Available GCP Projects:" ++ newline
                  ++ join newline (List.map (fun id => str "- " ++ id) projects))))
    (fun error =>
       Normal (text_content (str "Error listing GCP projects: " ++ err_message error))).

(** The success message of [create_project] reads the variable
    [newProjectId], which the module does not declare: evaluating it throws
    a ReferenceError inside the [try] block. *)
Definition create_project (projectId : jsval) : completion payload :=
  if match projectId with
     | VUndefined => false
     | VString s => negb (str_truthy (trim s))
     | _ => true
     end
  then Normal (text_content
                 (str "Error: If provided, Project ID must be a non-empty string."))
  else
    try_catch
      (result <- createProjectAndAttachBilling projectId ;;
       Throw (mkError ReferenceError (str "newProjectId is not defined")))
      (fun error =>
         Normal (text_content
                   (str "Error creating GCP project or attaching billing: "
                      ++ err_message error))).

(** [s.name.split('/').pop()] *)
Definition last_segment (name : jsstring) : jsstring :=
  last (split 47%N name) [].

Definition list_services (project region : jsval) : completion payload :=
  if negb (is_string project) then
    Normal (text_content
              (str "Error: Project ID must be provided and be a non-empty string."))
  else
    try_catch
      (services <- listServices project region ;;
       let serviceList :=
         join newline
           (List.map (fun s => str "- " ++ last_segment (service_name s)
                                 ++ str " (URL: " ++ service_uri s ++ str ")")
                     services) in
       Normal (text_content
                 (str "Services in project " ++ to_string project
                    ++ str " (location " ++ to_string region ++ str "):"
                    ++ newline ++ serviceList)))
      (fun error =>
         Normal (text_content
                   (str "Error listing services for project " ++ to_string project
                      ++ str " (region " ++ to_string region ++ str "): "
                      ++ err_message error))).

Definition get_service (project region service : jsval) : completion payload :=
  if negb (is_string project) then
    Normal (text_content (str "Error: Project ID must be provided."))
  else if negb (is_string service) then
    Normal (text_content (str "Error: Service name must be provided."))
  else
    try_catch
      (serviceDetails <- getService project region service ;;
       match serviceDetails with
       | Some d =>
           Normal (text_content
                     (str "Name: " ++ to_string service ++ newline
                        ++ str "Region: " ++ to_string region ++ newline
                        ++ str "Project: " ++ to_string project ++ newline
                        ++ str "URL: " ++ service_uri d ++ newline
                        ++ str "Last deployed by: " ++ service_lastModifier d))
       | None =>
           Normal (text_content
                     (str "Service " ++ to_string service
                        ++ str " not found in project " ++ to_string project
                        ++ str " (region " ++ to_string region ++ str ")."))
       end)
      (fun error =>
         Normal (text_content
                   (str "Error getting service " ++ to_string service
                      ++ str " in project " ++ to_string project
                      ++ str " (region " ++ to_string region ++ str "): "
                      ++ err_message error))).

Definition get_log_resource_types (project : jsval) : completion payload :=
  if negb (is_string project) then
    Normal (text_content (str "Error: Project ID must be provided."))
  else
    try_catch
      (resourceTypes <- getResourceTypes project ;;
       let resourceList :=
         join newline (List.map (fun type => str "- " ++ type) resourceTypes) in
       Normal (text_content
                 (str "Available resource types for logging in project "
                    ++ to_string project ++ str ":" ++ newline ++ resourceList
                    ++ newline ++ newline
                    ++ str "Use these with the get_logs tool's resourceType parameter to filter logs by specific resource types.")))
      (fun error =>
         Normal (text_content
                   (str "Error getting resource types for project "
                      ++ to_string project ++ str ": " ++ err_message error))).

(** **** [get_logs] *)

Variable getLogs : jsval -> log_options -> completion logs_result.
Variable stringify : list log_entry -> jsstring.

Definition get_logs (project : jsval) (options : log_options)
    (format : display_format) : completion payload :=
  if negb (is_string project) then
    Normal (text_content (str "Error: Project ID must be provided."))
  else
    try_catch
      (result <- getLogs project options ;;
       let formattedLogs := formatLogsForDisplay stringify (result_logs result) format in
       let responseText := str "Logs for project " ++ to_string project ++ str ":" ++ newline in
       let responseText :=
         if str_truthy (result_query result)
         then responseText ++ str "Query: " ++ result_query result ++ newline
         else responseText in
       let responseText :=
         responseText ++ str "Found " ++ decimal_nat (result_totalCount result)
           ++ str " entries" ++ newline ++ newline ++ formattedLogs in
       let responseText :=
         match result_nextPageToken result with
         | Some token =>
             if str_truthy token
             then responseText ++ newline ++ newline
                    ++ str "More logs available. Use pageToken: " ++ token
             else responseText
         | None => responseText
         end in
       Normal (text_content responseText))
      (fun error =>
         Normal (text_content
                   (str "Error getting logs for project " ++ to_string project
                      ++ str ": " ++ err_message error))).

(** **** The deploy tools *)

Definition deployed_text (service project region : jsval) (uri : jsstring) : jsstring :=
  str "Cloud Run service " ++ to_string service ++ str " deployed in project "
    ++ to_string project ++ newline
    ++ str "Cloud Console: https://console.cloud.google.com/run/detail/"
    ++ to_string region ++ str "/" ++ to_string service ++ str "?project="
    ++ to_string project ++ newline ++ str "Service URL: " ++ uri.

Definition deploy_local_files (project region service files : jsval)
    : completion payload :=
  if negb (is_string project) then
    Throw (mkError Error (str "Project must specified, please prompt the user for a valid existing Google Cloud project ID."))
  else if negb (is_array files) then
    Throw (mkError Error (str "Files must specified"))
  else if Nat.eqb (length (items_of files)) 0 then
    Throw (mkError Error (str "No files specified for deployment"))
  else
    try_catch
      (uri <- deploy {| projectId := project; serviceName := service; region := region;
                        files := files; skipIamCheck := skipIamCheck_flag |} ;;
       Normal (text_content (deployed_text service project region uri)))
      (fun error =>
         Normal (text_content
                   (str "Error deploying to Cloud Run: " ++ message_or_error error))).

Definition deploy_local_folder (project region service folderPath : jsval)
    : completion payload :=
  if negb (is_string project) then
    Throw (mkError Error (str "Project must be specified, please prompt the user for a valid existing Google Cloud project ID."))
  else if negb (is_string folderPath)
          || negb (str_truthy (trim (to_string folderPath))) then
    Throw (mkError Error (str "Folder path must be specified and be a non-empty string."))
  else
    try_catch
      (uri <- deploy {| projectId := project; serviceName := service; region := region;
                        files := VArray [folderPath];
                        skipIamCheck := skipIamCheck_flag |} ;;
       Normal (text_content
                 (str "Cloud Run service " ++ to_string service
                    ++ str " deployed from folder " ++ to_string folderPath
                    ++ str " in project " ++ to_string project ++ newline
                    ++ str "Cloud Console: https://console.cloud.google.com/run/detail/"
                    ++ to_string region ++ str "/" ++ to_string service
                    ++ str "?project=" ++ to_string project ++ newline
                    ++ str "Service URL: " ++ uri)))
      (fun error =>
         Normal (text_content
                   (str "Error deploying folder to Cloud Run: "
                      ++ message_or_error error))).

(** [for (const file of files) if (!file.content) throw ...] *)
Fixpoint check_contents (files : list jsval) : completion unit :=
  match files with
  | [] => Normal tt
  | file :: rest =>
      content <- prop file key_content ;;
      if negb (truthy content) then
        filename <- prop file key_filename ;;
        Throw (mkError Error (str "File " ++ to_string filename
                                ++ str " must have content"))
      else check_contents rest
  end.

Definition deploy_file_contents (project region service files : jsval)
    : completion payload :=
  if negb (is_string project) then
    Throw (mkError Error (str "Project must specified, please prompt the user for a valid existing Google Cloud project ID."))
  else if negb (is_array files) then
    Throw (mkError Error (str "Files must be specified"))
  else if Nat.eqb (length (items_of files)) 0 then
    Throw (mkError Error (str "No files specified for deployment"))
  else
    check_contents (items_of files) ;;;
    try_catch
      (uri <- deploy {| projectId := project; serviceName := service; region := region;
                        files := files; skipIamCheck := skipIamCheck_flag |} ;;
       Normal (text_content (deployed_text service project region uri)))
      (fun error =>
         Normal (text_content
                   (str "Error deploying to Cloud Run: " ++ message_or_error error))).

(** The remote variant: the project is the server's own. *)
Definition deploy_file_contents_remote (currentProject region service files : jsval)
    : completion payload :=
  if negb (is_array files) || Nat.eqb (length (items_of files)) 0 then
    Throw (mkError Error (str "Files must be specified"))
  else
    check_contents (items_of files) ;;;
    try_catch
      (uri <- deploy {| projectId := currentProject; serviceName := service;
                        region := region; files := files;
                        skipIamCheck := skipIamCheck_flag |} ;;
       Normal (text_content (deployed_text service currentProject region uri)))
      (fun error =>
         Normal (text_content
                   (str "Error deploying to Cloud Run: " ++ message_or_error error))).

End Handlers.

(** **** [get_service_log]

    The handler, the same in [registerTools] and [registerToolsRemote],
    pages through [getServiceLogs] in a [do ... while] loop.  The backend
    is a state machine: a call returns a page (or throws) and the
    backend's next state.  [fuel] bounds the number of iterations; the
    result is [None] while the loop is still running. *)

Section ServiceLog.

Variable request : Type.
Variable backend : Type.
Variable getServiceLogs :
  backend -> jsval -> jsval -> jsval -> option request
  -> completion (log_page request) * backend.

Fixpoint fetch_pages (fuel : nat) (b : backend) (project region service : jsval)
    (allLogs : list jsstring) (requestOptions : option request)
    : option (completion (list jsstring) * backend) :=
  match fuel with
  | O => None
  | S fuel' =>
      match getServiceLogs b project region service requestOptions with
      | (Throw error, b') => Some (Throw error, b')
      | (Normal response, b') =>
          let allLogs :=
            match logs response with
            | Some l => if str_truthy l then allLogs ++ [l] else allLogs
            | None => allLogs
            end in
          let requestOptions := next_requestOptions response in
          match requestOptions with
          | Some _ => fetch_pages fuel' b' project region service allLogs requestOptions
          | None => Some (Normal allLogs, b')
          end
      end
  end.

Definition get_service_log (fuel : nat) (b : backend) (project region service : jsval)
    : option (completion payload * backend) :=
  match fetch_pages fuel b project region service [] None with
  | None => None
  | Some (outcome, b') =>
      Some (try_catch
              (allLogs <- outcome ;;
               Normal (text_content (join newline allLogs)))
              (fun error =>
                 Normal (text_content
                           (str "Error getting Logs for service " ++ to_string service
                              ++ str " in project " ++ to_string project
                              ++ str " (region " ++ to_string region ++ str "): "
                              ++ err_message error))),
            b')
  end.

End ServiceLog.

(** A scripted backend: it answers the calls with the pages of [script] in
    order and records the request options of every call it receives. *)
Record stub (request : Type) := {
  script : list (log_page request);
  calls : list (option request)
}.

Definition stub_getServiceLogs {request} (b : stub request)
    (project region service : jsval) (requestOptions : option request)
    : completion (log_page request) * stub request :=
  match script b with
  | page :: rest =>
      (Normal page, {| script := rest; calls := calls b ++ [requestOptions] |})
  | [] =>
      (Throw (mkError Error (str "no page left")),
       {| script := []; calls := calls b ++ [requestOptions] |})
  end.

(** *** The handlers of [registerToolsRemote]

    The project is the server's own ([currentProject]); the messages of
    the [catch] blocks and of a service that is not found name the
    server's region ([currentRegion]), not the region of the call. *)

Section RemoteHandlers.

Variable currentProject : jsstring.
Variable currentRegion : jsstring.
Variable listServices : jsval -> jsval -> completion (list service_info).
Variable getService : jsval -> jsval -> jsval -> completion (option service_info).
Variable getResourceTypes : jsval -> completion (list jsstring).
Variable getLogs : jsval -> GcpLogs.log_options -> completion GcpLogs.logs_result.
Variable stringify : list GcpLogs.log_entry -> jsstring.

Definition list_services_remote (region : jsval) : completion payload :=
  try_catch
    (services <- listServices (VString currentProject) region ;;
     let serviceList :=
       join GcpLogs.newline
         (List.map (fun s => str "- " ++ last_segment (service_name s)
                               ++ str " (URL: " ++ service_uri s ++ str ")")
                   services) in
     Normal (text_content
               (str "Services in project " ++ currentProject
                  ++ str " (location " ++ to_string region ++ str "):"
                  ++ GcpLogs.newline ++ serviceList)))
    (fun error =>
       Normal (text_content
                 (str "Error listing services for project " ++ currentProject
                    ++ str " (region " ++ currentRegion ++ str "): "
                    ++ err_message error))).

Definition get_service_remote (region service : jsval) : completion payload :=
  if negb (is_string service) then
    Normal (text_content (str "Error: Service name must be provided."))
  else
    try_catch
      (serviceDetails <- getService (VString currentProject) region service ;;
       match serviceDetails with
       | Some d =>
           Normal (text_content
                     (str "Name: " ++ to_string service ++ GcpLogs.newline
                        ++ str "Region: " ++ to_string region ++ GcpLogs.newline
                        ++ str "Project: " ++ currentProject ++ GcpLogs.newline
                        ++ str "URL: " ++ service_uri d ++ GcpLogs.newline
                        ++ str "Last deployed by: " ++ service_lastModifier d))
       | None =>
           Normal (text_content
                     (str "Service " ++ to_string service
                        ++ str " not found in project " ++ currentProject
                        ++ str " (region " ++ currentRegion ++ str ")."))
       end)
      (fun error =>
         Normal (text_content
                   (str "Error getting service " ++ to_string service
                      ++ str " in project " ++ currentProject
                      ++ str " (region " ++ currentRegion ++ str "): "
                      ++ err_message error))).

Definition get_logs_remote (options : GcpLogs.log_options)
    (format : GcpLogs.display_format) : completion payload :=
  try_catch
    (result <- getLogs (VString currentProject) options ;;
     let formattedLogs :=
       GcpLogs.formatLogsForDisplay stringify (GcpLogs.result_logs result) format in
     let responseText :=
       str "Logs for project " ++ currentProject ++ str ":" ++ GcpLogs.newline in
     let responseText :=
       if str_truthy (GcpLogs.result_query result)
       then responseText ++ str "Query: " ++ GcpLogs.result_query result
              ++ GcpLogs.newline
       else responseText in
     let responseText :=
       responseText ++ str "Found " ++ decimal_nat (GcpLogs.result_totalCount result)
         ++ str " entries" ++ GcpLogs.newline ++ GcpLogs.newline ++ formattedLogs in
     let responseText :=
       match GcpLogs.result_nextPageToken result with
       | Some token =>
           if str_truthy token
           then responseText ++ GcpLogs.newline ++ GcpLogs.newline
                  ++ str "More logs available. Use pageToken: " ++ token
           else responseText
       | None => responseText
       end in
     Normal (text_content responseText))
    (fun error =>
       Normal (text_content
                 (str "Error getting logs for project " ++ currentProject
                    ++ str ": " ++ err_message error))).

Definition get_log_resource_types_remote : completion payload :=
  try_catch
    (resourceTypes <- getResourceTypes (VString currentProject) ;;
     let resourceList :=
       join GcpLogs.newline (List.map (fun type => str "- " ++ type) resourceTypes) in
     Normal (text_content
               (str "Available resource types for logging in project "
                  ++ currentProject ++ str ":" ++ GcpLogs.newline ++ resourceList
                  ++ GcpLogs.newline ++ GcpLogs.newline
                  ++ str "Use these with the get_logs tool's resourceType parameter to filter logs by specific resource types.")))
    (fun error =>
       Normal (text_content
                 (str "Error getting resource types for project "
                    ++ currentProject ++ str ": " ++ err_message error))).

End RemoteHandlers.

End Tools.

(* ================================================================== *)
(** ** index.js *)

Module Index.

Import CliArgs ToolRegistry Tools.

(** What [checkGCP] resolves to: [null], or the metadata of the project. *)
Record gcp_info := { project : option jsstring }.

(** [gcpInfo && gcpInfo.project] as a condition. *)
Definition has_project (gcpInfo : option gcp_info) : bool :=
  match gcpInfo with
  | Some i => opt_truthy (project i)
  | None => false
  end.

(** The process: its environment, the metadata read when the module is
    loaded, and the parsed command line. *)
Record process := {
  GCP_STDIO : option jsstring;
  GOOGLE_CLOUD_PROJECT : option jsstring;
  startup_gcpInfo : option gcp_info;
  argv : minimist_args
}.

Definition shouldStartStdio (p : process) : bool :=
  if opt_truthy (GCP_STDIO p) then true
  else if has_project (startup_gcpInfo p) then false
  else true.

(** How [getServer] ends: [process.exit(code)], a server with its tools
    registered, or an exception. *)
Inductive outcome :=
| Exit (code : Z)
| Serving (s : server)
| Failed (e : js_error).

(** [a || b] on optional strings. *)
Definition or_opt (a b : option jsstring) : option jsstring :=
  if opt_truthy a then a else b.

(** [getServer]; [gcpInfo] is the result of its own call of [checkGCP]. *)
Definition getServer (p : process) (gcpInfo : option gcp_info) : outcome :=
  match parseCliArgs (argv p) with
  | Throw _ => Exit 1
  | Normal cliConfig =>
      let effectiveProjectId :=
        or_opt (GOOGLE_CLOUD_PROJECT p)
          (if has_project gcpInfo
           then match gcpInfo with Some i => project i | None => None end
           else None) in
      let isRemote := negb (shouldStartStdio p) && has_project gcpInfo in
      match createToolFilter (enabledTools cliConfig) (disabledTools cliConfig) isRemote with
      | Throw _ => Exit 1
      | Normal toolFilter =>
          if shouldStartStdio p || negb (has_project gcpInfo) then
            Serving (registerTools [] (Some toolFilter))
          else
            match registerToolsRemote [] effectiveProjectId (Some toolFilter) with
            | Normal s => Serving s
            | Throw e => Failed e
            end
      end
  end.

End Index.

(* ================================================================== *)
(** * Vocabulary of the properties *)

Unset Implicit Arguments.

Import CliArgs ToolRegistry.

(** [n] is named in [tools] and is not in the catalog of the mode. *)
Definition offending (isRemote : bool) (tools : list jsstring) (n : jsstring) : Prop :=
  In n tools /\ ~ In n (availableTools isRemote).

(** The list an option value stands for: the tokens of a non-empty string,
    and [null] when the option is absent, negated, or has the empty string
    as value. *)
Definition tool_list_of (value : option arg_value) : option (list jsstring) :=
  match value with
  | Some (arg_string (c :: v)) => Some (parse_tool_list (c :: v))
  | _ => None
  end.

(** The option holds a value without a [split] method: an array (the option
    is given more than once) or an object (a dotted key). *)
Definition unsplittable (value : option arg_value) : Prop :=
  match value with
  | Some (arg_array _) | Some arg_object => True
  | _ => False
  end.

(** The length of a unit of a time range, in milliseconds. *)
Definition unit_ms (u : Js.char16) : Z :=
  if N.eqb u GcpLogs.unit_h then 3600000%Z
  else if N.eqb u GcpLogs.unit_d then 86400000%Z
  else if N.eqb u GcpLogs.unit_m then 60000%Z
  else 0%Z.

(** [s] is a time range token: the decimal digits [amount] followed by
    the unit [u], one of [h], [m] and [d]. *)
Definition time_token (s amount : jsstring) (u : Js.char16) : Prop :=
  s = amount ++ [u]
  /\ amount <> []
  /\ Forall (fun c => JsDate.is_digit c = true) amount
  /\ (u = GcpLogs.unit_h \/ u = GcpLogs.unit_m \/ u = GcpLogs.unit_d).

(** The lower bound on the timestamp, for the instant [t]. *)
Definition time_clause (t : Z) : jsstring :=
  str "timestamp>=" ++ dquote ++ JsDate.iso_string t ++ dquote.

(** The number [v] is at least [B]. *)
Definition at_least (B : Z) (v : JsDate.number) : Prop :=
  match v with
  | JsDate.Fin m => (B <= m)%Z
  | JsDate.PosInf => True
  | _ => False
  end.

(** The double [v] computed for the exact product [z]: it is [z] itself
    below 2^54, and at least 2^54 from there on. *)
Definition tracks (v : JsDate.number) (z : Z) : Prop :=
  (z < 2 ^ 54 /\ v = JsDate.Fin z)%Z \/ (2 ^ 54 <= z /\ at_least (2 ^ 54) v)%Z.

(** The value of an option that is supplied with a non-empty string. *)
Definition supplied (o : option jsstring) : list jsstring :=
  match o with
  | Some (c :: s) => [c :: s]
  | _ => []
  end.

(** The clauses of the filter query, in their order: the free-form filter
    in parentheses, the resource type, the minimum severity unless it is
    [DEFAULT], and the lower bound of the time range when it is a time
    range token. *)
Definition expected_clauses (now : Z) (o : GcpLogs.log_options) : list jsstring :=
  List.map (fun f => str "(" ++ f ++ str ")") (supplied (GcpLogs.filter o))
  ++ List.map (fun rt => str "resource.type=" ++ dquote ++ rt ++ dquote)
       (supplied (GcpLogs.resourceType o))
  ++ List.map (fun sv => str "severity>=" ++ sv)
       (List.filter (fun sv => negb (eqb_str sv (str "DEFAULT")))
          (supplied (GcpLogs.severity o)))
  ++ match GcpLogs.timeRange o with
     | Some tr =>
         match GcpLogs.match_time_range tr with
         | Some (amount, u) =>
             [time_clause (now - JsDate.digits_value amount * unit_ms u)]
         | None => []
         end
     | None => []
     end.

(** The start time of the time range, when there is one, is a date. *)
Definition time_range_ok (now : Z) (o : GcpLogs.log_options) : Prop :=
  forall tr amount u,
    GcpLogs.timeRange o = Some tr ->
    GcpLogs.match_time_range tr = Some (amount, u) ->
    (- JsDate.max_time <= now - JsDate.digits_value amount * unit_ms u)%Z.

(** The message of a table row: the log data, cut at 100 code units and
    followed by three dots when it is longer. *)
Definition message_cell (d : jsstring) : jsstring :=
  if Nat.leb (length d) 100 then d else firstn 100 d ++ str "...".

(** The width of column [i]: the largest length among its header and its
    cells. *)
Definition column_width (i : nat) (entries : list GcpLogs.log_entry) : nat :=
  list_max (length (nth i GcpLogs.headers [])
            :: List.map (fun e => length (GcpLogs.cell (GcpLogs.row_of e) i)) entries).

(** The cell [c] followed by spaces up to the width [w]. *)
Definition padded (w : nat) (c : jsstring) : jsstring :=
  c ++ repeat 32%N (w - length c).

(** The pages a scripted backend answers with: each page of [init] holds
    its log text and the request options of the next page, the last page
    holds its log text only. *)
Definition pages_of {request} (init : list (option jsstring * request))
    (last_logs : option jsstring) : list (Tools.log_page request) :=
  List.map (fun p => {| Tools.logs := fst p; Tools.next_requestOptions := Some (snd p) |})
           init
  ++ [{| Tools.logs := last_logs; Tools.next_requestOptions := None |}].

(** The log texts of the pages that have one, in the order of the pages. *)
Definition page_texts {request} (init : list (option jsstring * request))
    (last_logs : option jsstring) : list jsstring :=
  flat_map (fun p => supplied (fst p)) init ++ supplied last_logs.


(** The tools [registerTools] can register, in the order of its
    [server.tool] calls, and those of [registerToolsRemote]. *)
Definition local_tool_names : list jsstring :=
  [ str "list_projects"; str "create_project"; str "list_services";
    str "get_service"; str "get_service_log"; str "get_logs";
    str "get_log_resource_types"; str "deploy_local_files";
    str "deploy_local_folder"; str "deploy_file_contents" ].

Definition remote_tool_names : list jsstring :=
  [ str "list_services"; str "get_service"; str "get_service_log";
    str "get_logs"; str "get_log_resource_types"; str "deploy_file_contents" ].

Definition tool_names (isRemote : bool) : list jsstring :=
  if isRemote then remote_tool_names else local_tool_names.

(** The mode [getServer] runs in. *)
Definition remote_mode (p : Index.process) (gcpInfo : option Index.gcp_info) : bool :=
  negb (Index.shouldStartStdio p) && Index.has_project gcpInfo.

(** The pages of a backend that gives a next page for each page of
    [init], and no page after them. *)
Definition pages_with_next {request} (init : list (option jsstring * request))
    : list (Tools.log_page request) :=
  List.map (fun p => {| Tools.logs := fst p; Tools.next_requestOptions := Some (snd p) |})
           init.

(** The text of the payload of [get_service_log] for an error. *)
Definition service_log_error (project region service : Tools.jsval)
    (error : js_error) : jsstring :=
  str "Error getting Logs for service " ++ Tools.to_string service
    ++ str " in project " ++ Tools.to_string project
    ++ str " (region " ++ Tools.to_string region ++ str "): "
    ++ err_message error.

(** The files of a deploy request all have content. *)
Definition all_have_content (files : list Tools.jsval) : Prop :=
  forall file, In file files ->
    exists filename content,
      file = Tools.VObject filename content /\ Tools.truthy content = true.

(** The file has no content: its [content] is missing or falsy, or the
    value is no object at all. *)
Definition lacks_content (file : Tools.jsval) : Prop :=
  match file with
  | Tools.VObject _ content => Tools.truthy content = false
  | _ => True
  end.

(** The error of the content check at a file without content. *)
Definition content_error (file : Tools.jsval) : js_error :=
  match file with
  | Tools.VUndefined =>
      mkError TypeError (str "Cannot read properties of undefined (reading 'content')")
  | Tools.VNull =>
      mkError TypeError (str "Cannot read properties of null (reading 'content')")
  | Tools.VObject filename _ =>
      mkError Error (str "File " ++ Tools.to_string filename ++ str " must have content")
  | _ => mkError Error (str "File undefined must have content")
  end.

(** A backend that answers with the pages of its state in order and
    throws [error] once they are used up. *)
Definition failing_getServiceLogs {request} (error : js_error)
    (b : list (Tools.log_page request)) (project region service : Tools.jsval)
    (requestOptions : option request)
    : completion (Tools.log_page request) * list (Tools.log_page request) :=
  match b with
  | page :: rest => (Normal page, rest)
  | [] => (Throw error, [])
  end.

(** The project id passes the check of [create_project]: it is absent, or
    a string with more than white space. *)
Definition project_id_accepted (projectId : Tools.jsval) : Prop :=
  projectId = Tools.VUndefined
  \/ exists s, projectId = Tools.VString s /\ trim s <> [].

(** A token is clean: it is not empty, holds no comma, and has no white
    space at either end. *)
Definition clean_token (t : jsstring) : Prop :=
  t <> [] /\ ~ In comma t
  /\ (forall c rest, t = c :: rest -> is_white c = false)
  /\ (forall c rest, t = rest ++ [c] -> is_white c = false).


(* ================================================================== *)
(** * Properties *)

(** ** Strings: equality, membership, occurrence *)

Lemma eqb_str_spec (a b : jsstring) : eqb_str a b = true <-> a = b.
Proof.
  revert b; induction a as [|x a IH]; intros [|y b]; simpl;
    try (split; [discriminate | congruence]); try tauto.
  rewrite andb_true_iff, N.eqb_eq, IH.
  split; [intros [-> ->]; reflexivity | intros [= -> ->]; auto].
Qed.

Lemma includes_spec (l : list jsstring) (x : jsstring) :
  includes l x = true <-> In x l.
Proof.
  unfold includes. rewrite existsb_exists. split.
  - intros (y & Hy & E). apply eqb_str_spec in E. subst. assumption.
  - intros H. exists x. split; [assumption | apply eqb_str_spec; reflexivity].
Qed.

Lemma includes_false (l : list jsstring) (x : jsstring) :
  includes l x = false <-> ~ In x l.
Proof.
  rewrite <- includes_spec. destruct (includes l x); intuition congruence.
Qed.

Lemma occurs_refl (s : jsstring) : occurs s s.
Proof. exists [], []. rewrite app_nil_r. reflexivity. Qed.

Lemma occurs_app_l (t a b : jsstring) : occurs t a -> occurs t (a ++ b).
Proof.
  intros (pre & post & ->). exists pre, (post ++ b).
  rewrite <- !app_assoc. reflexivity.
Qed.

Lemma occurs_app_r (t a b : jsstring) : occurs t b -> occurs t (a ++ b).
Proof.
  intros (pre & post & ->). exists (a ++ pre), post.
  rewrite <- !app_assoc. reflexivity.
Qed.

Lemma occurs_join (sep x : jsstring) (l : list jsstring) :
  In x l -> occurs x (join sep l).
Proof.
  induction l as [|y l IH]; [intros [] |].
  intros [-> | Hin].
  - destruct l; [apply occurs_refl | simpl; apply occurs_app_l, occurs_refl].
  - destruct l as [|z l]; [destruct Hin |].
    change (join sep (y :: z :: l)) with (y ++ sep ++ join sep (z :: l)).
    apply occurs_app_r, occurs_app_r, IH, Hin.
Qed.

Lemma prefixb_spec (t s : jsstring) :
  prefixb t s = true <-> exists post, s = t ++ post.
Proof.
  revert s; induction t as [|x t IH]; intros s; simpl.
  - split; [intros _; exists s; reflexivity | reflexivity].
  - destruct s as [|y s].
    + split; [discriminate | intros (post & E); discriminate].
    + rewrite andb_true_iff, N.eqb_eq, IH. split.
      * intros (-> & post & ->). exists post. reflexivity.
      * intros (post & [= -> ->]). split; [reflexivity | exists post; reflexivity].
Qed.

Lemma occursb_spec (t s : jsstring) : occursb t s = true <-> occurs t s.
Proof.
  induction s as [|y s IH]; simpl.
  - rewrite orb_false_r, prefixb_spec. split.
    + intros (post & E). exists [], post. exact E.
    + intros (pre & post & E). destruct pre; simpl in E.
      * exists post. exact E.
      * discriminate.
  - rewrite orb_true_iff, prefixb_spec, IH. split.
    + intros [(post & E) | (pre & post & E)].
      * exists [], post. exact E.
      * exists (y :: pre), post. simpl. rewrite E. reflexivity.
    + intros (pre & post & E). destruct pre as [|c pre]; simpl in E.
      * left. exists post. exact E.
      * right. injection E as _ E. exists pre, post. exact E.
Qed.

Lemma not_occurs (t s : jsstring) : occursb t s = false -> ~ occurs t s.
Proof. intros H O. apply occursb_spec in O. congruence. Qed.

(** ** The tool filter *)

Lemma list_nonempty_spec (o : option (list jsstring)) :
  list_nonempty o = true <-> list_of o <> [].
Proof.
  destruct o as [[|x l]|]; cbn; split; congruence.
Qed.

Lemma list_nonempty_false (o : option (list jsstring)) :
  list_nonempty o = false <-> list_of o = [].
Proof.
  destruct o as [[|x l]|]; cbn; split; congruence.
Qed.

(** The decision of the closure, whatever the lists. *)
Lemma shouldRegisterTool_spec (e d : option (list jsstring)) (n : jsstring) :
  (list_of e <> [] -> (shouldRegisterTool e d n = true <-> In n (list_of e)))
  /\ (list_of e = [] -> list_of d <> [] ->
      (shouldRegisterTool e d n = true <-> ~ In n (list_of d)))
  /\ (list_of e = [] -> list_of d = [] -> shouldRegisterTool e d n = true).
Proof.
  unfold shouldRegisterTool. split; [|split].
  - intros He. apply list_nonempty_spec in He. rewrite He. apply includes_spec.
  - intros He Hd. apply list_nonempty_false in He. apply list_nonempty_spec in Hd.
    rewrite He, Hd, negb_true_iff. apply includes_false.
  - intros He Hd. apply list_nonempty_false in He, Hd. rewrite He, Hd. reflexivity.
Qed.

(** When [createToolFilter] returns, it returns the closure over its two
    lists. *)
Lemma createToolFilter_returns (e d : option (list jsstring)) (r : bool)
    (p : jsstring -> bool) :
  createToolFilter e d r = Normal p -> p = shouldRegisterTool e d.
Proof.
  unfold createToolFilter, bind.
  destruct (list_nonempty e);
    [destruct (Nat.ltb 0 (length (invalid_names r (list_of e)))); [discriminate|] |];
    (destruct (list_nonempty d);
      [destruct (Nat.ltb 0 (length (invalid_names r (list_of d)))); [discriminate|] |]);
    intros [= <-]; reflexivity.
Qed.

(** C1. For every pair of lists and mode flag that [createToolFilter]
    accepts, the returned predicate answers, for every tool name: with a
    non-empty [enabledTools], true exactly for the members of
    [enabledTools]; otherwise, with a non-empty [disabledTools], true
    exactly for the names that are not members of [disabledTools];
    otherwise true. *)
Theorem createToolFilter_predicate
    (enabledTools disabledTools : option (list jsstring)) (isRemote : bool)
    (predicate : jsstring -> bool) :
  createToolFilter enabledTools disabledTools isRemote = Normal predicate ->
  forall n : jsstring,
    (list_of enabledTools <> [] ->
       (predicate n = true <-> In n (list_of enabledTools)))
    /\ (list_of enabledTools = [] -> list_of disabledTools <> [] ->
       (predicate n = true <-> ~ In n (list_of disabledTools)))
    /\ (list_of enabledTools = [] -> list_of disabledTools = [] ->
       predicate n = true).
Proof.
  intros H n. apply createToolFilter_returns in H. subst predicate.
  apply shouldRegisterTool_spec.
Qed.

Lemma createToolFilter_predicate_witness :
  (shouldRegisterTool None (Some [str "get_service"]) (str "list_services") = true
   <-> ~ In (str "list_services") [str "get_service"]).
Proof.
  refine (proj1 (proj2 (createToolFilter_predicate
                   None (Some [str "get_service"]) false
                   (shouldRegisterTool None (Some [str "get_service"])) eq_refl
                   (str "list_services"))) eq_refl _).
  discriminate.
Defined.

(** *** Validation of the names *)

Lemma invalid_names_spec (r : bool) (tools : list jsstring) (n : jsstring) :
  In n (invalid_names r tools) <-> offending r tools n.
Proof.
  unfold invalid_names, offending.
  rewrite filter_In, negb_true_iff, includes_false. reflexivity.
Qed.

Lemma no_offender (r : bool) (tools : list jsstring) :
  invalid_names r tools = [] <-> forall n, ~ offending r tools n.
Proof.
  split.
  - intros E n H. apply invalid_names_spec in H. rewrite E in H. exact H.
  - intros H. destruct (invalid_names r tools) as [|n l] eqn:E; [reflexivity |].
    exfalso. apply (H n), invalid_names_spec. rewrite E. left. reflexivity.
Qed.

Lemma some_offender (r : bool) (tools : list jsstring) :
  (exists n, offending r tools n) ->
  list_nonempty (Some tools) = true
  /\ Nat.ltb 0 (length (invalid_names r tools)) = true.
Proof.
  intros (n & H). split.
  - destruct tools; [destruct H as [[] _] | reflexivity].
  - apply invalid_names_spec in H.
    destruct (invalid_names r tools); [destruct H | reflexivity].
Qed.

Lemma offender_list_of (r : bool) (o : option (list jsstring)) :
  (exists n, offending r (list_of o) n) -> o = Some (list_of o).
Proof.
  intros (n & H & _). destruct o; [reflexivity | destruct H].
Qed.

(** An offender among the enabled tools is reported first. *)
Lemma createToolFilter_enabled_invalid (e d : option (list jsstring)) (r : bool) :
  (exists n, offending r (list_of e) n) ->
  createToolFilter e d r =
  Throw (mkError Error
           (invalid_message (str "--enabled-tools") (invalid_names r (list_of e)) r)).
Proof.
  intros H. pose proof (offender_list_of _ _ H) as E.
  destruct (some_offender _ _ H) as [H1 H2]. rewrite <- E in H1.
  unfold createToolFilter. rewrite H1, H2. reflexivity.
Qed.

(** The disabled tools are validated once the enabled ones have passed. *)
Lemma createToolFilter_disabled_invalid (e d : option (list jsstring)) (r : bool) :
  (forall n, ~ offending r (list_of e) n) ->
  (exists n, offending r (list_of d) n) ->
  createToolFilter e d r =
  Throw (mkError Error
           (invalid_message (str "--disabled-tools") (invalid_names r (list_of d)) r)).
Proof.
  intros He H. pose proof (offender_list_of _ _ H) as E.
  destruct (some_offender _ _ H) as [H1 H2]. rewrite <- E in H1.
  apply no_offender in He.
  unfold createToolFilter. rewrite He, H1, H2.
  destruct (list_nonempty e); reflexivity.
Qed.

Lemma invalid_message_names (flag : jsstring) (invalid : list jsstring) (r : bool)
    (n : jsstring) :
  In n invalid -> occurs n (invalid_message flag invalid r).
Proof.
  intros H. unfold invalid_message.
  apply occurs_app_l. do 3 apply occurs_app_r.
  apply occurs_app_l, occurs_join, H.
Qed.

Lemma invalid_message_catalog (flag : jsstring) (invalid : list jsstring) (r : bool) :
  occurs (join (str ", ") (availableTools r)) (invalid_message flag invalid r).
Proof.
  unfold invalid_message. do 4 apply occurs_app_r. apply occurs_refl.
Qed.

Lemma occurs_trans (a b c : jsstring) : occurs a b -> occurs b c -> occurs a c.
Proof.
  intros (p1 & q1 & ->) (p2 & q2 & ->). exists (p2 ++ p1), (q1 ++ q2).
  rewrite <- !app_assoc. reflexivity.
Qed.

(** A list with a name outside the catalog makes [createToolFilter]
    throw. *)
Lemma createToolFilter_rejects_names_any (e d : option (list jsstring)) (r : bool) :
  (exists n, offending r (list_of e) n) \/ (exists n, offending r (list_of d) n) ->
  exists msg, createToolFilter e d r = Throw (mkError Error msg).
Proof.
  intros H.
  destruct (invalid_names r (list_of e)) as [|n0 l0] eqn:E.
  - pose proof (proj1 (no_offender _ _) E) as He.
    destruct H as [(n & H) | H]; [destruct (He n H) |].
    eexists. apply createToolFilter_disabled_invalid; assumption.
  - eexists. apply createToolFilter_enabled_invalid.
    exists n0. apply invalid_names_spec. rewrite E. left. reflexivity.
Qed.

(** C7.  The two lists are exclusive: at most one of them is non-empty,
    which [parseCliArgs] enforces before [createToolFilter] is called.
    When a list names a tool outside the catalog of the mode,
    [createToolFilter] throws before it returns a predicate, and the
    message of the error holds every offending name and every name of the
    catalog of the mode, which it lists in full. *)
Theorem createToolFilter_rejects_unknown_names
    (enabledTools disabledTools : option (list jsstring)) (isRemote : bool) :
  list_of enabledTools = [] \/ list_of disabledTools = [] ->
  (exists n, offending isRemote (list_of enabledTools) n)
  \/ (exists n, offending isRemote (list_of disabledTools) n) ->
  exists msg,
    createToolFilter enabledTools disabledTools isRemote = Throw (mkError Error msg)
    /\ (forall p, createToolFilter enabledTools disabledTools isRemote <> Normal p)
    /\ (forall n, offending isRemote (list_of enabledTools) n
                  \/ offending isRemote (list_of disabledTools) n ->
                  occurs n msg)
    /\ occurs (join (str ", ") (availableTools isRemote)) msg
    /\ (forall n, In n (availableTools isRemote) -> occurs n msg).
Proof.
  intros Hex H.
  destruct (invalid_names isRemote (list_of enabledTools)) as [|n0 l0] eqn:E.
  - (* the enabled tools pass: the disabled ones are reported *)
    pose proof (proj1 (no_offender _ _) E) as He.
    destruct H as [(n & H) | H]; [destruct (He n H) |].
    eexists. split; [apply createToolFilter_disabled_invalid; assumption |].
    split; [intros p Hp;
            rewrite (createToolFilter_disabled_invalid _ _ _ He H) in Hp;
            discriminate Hp |].
    split; [| split; [apply invalid_message_catalog |]].
    + intros n [Hn | Hn]; [destruct (He n Hn) |].
      apply invalid_message_names, invalid_names_spec, Hn.
    + intros n Hn; eapply occurs_trans;
        [apply occurs_join, Hn | apply invalid_message_catalog].
  - (* an enabled tool is unknown: the disabled tools are empty *)
    assert (He : exists n, offending isRemote (list_of enabledTools) n).
    { exists n0. apply invalid_names_spec. rewrite E. left. reflexivity. }
    eexists. split; [apply createToolFilter_enabled_invalid; assumption |].
    split; [intros p Hp;
            rewrite (createToolFilter_enabled_invalid _ disabledTools _ He) in Hp;
            discriminate Hp |].
    split; [| split; [apply invalid_message_catalog |]].
    + intros n [Hn | Hn]; [apply invalid_message_names, invalid_names_spec, Hn |].
      exfalso. destruct Hex as [Hnil | Hnil].
      * destruct He as (k & Hk & _). rewrite Hnil in Hk. destruct Hk.
      * destruct Hn as [Hin _]. rewrite Hnil in Hin. destruct Hin.
    + intros n Hn; eapply occurs_trans;
        [apply occurs_join, Hn | apply invalid_message_catalog].
Qed.

Lemma unknown_foo : offending false [str "foo"] (str "foo").
Proof.
  split; [left; reflexivity |].
  intros H. apply includes_spec in H. discriminate H.
Defined.

Lemma createToolFilter_rejects_unknown_names_witness :
  exists msg,
    createToolFilter (Some [str "foo"]) None false = Throw (mkError Error msg)
    /\ (forall p, createToolFilter (Some [str "foo"]) None false <> Normal p)
    /\ (forall n, offending false [str "foo"] n \/ offending false [] n -> occurs n msg)
    /\ occurs (join (str ", ") (availableTools false)) msg
    /\ (forall n, In n (availableTools false) -> occurs n msg).
Proof.
  apply (createToolFilter_rejects_unknown_names (Some [str "foo"]) None false).
  - right. reflexivity.
  - left. exists (str "foo"). exact unknown_foo.
Defined.

(** With both lists given, which [parseCliArgs] excludes, the error is the
    one of the enabled tools alone. *)
Example createToolFilter_both_lists :
  exists msg,
    createToolFilter (Some [str "foo"]) (Some [str "bar"]) false
    = Throw (mkError Error msg)
    /\ occurs (str "foo") msg /\ ~ occurs (str "bar") msg.
Proof.
  eexists. split; [reflexivity |]. split.
  - apply occursb_spec. vm_compute. reflexivity.
  - apply not_occurs. vm_compute. reflexivity.
Qed.

(** ** The command line *)

Lemma parse_tool_list_tokens (v t : jsstring) :
  In t (parse_tool_list v)
  <-> t <> [] /\ exists piece, In piece (split comma v) /\ t = trim piece.
Proof.
  unfold parse_tool_list. rewrite filter_In, in_map_iff. split.
  - intros ((piece & E & Hin) & Hlen). split.
    + intros ->. discriminate Hlen.
    + exists piece. auto.
  - intros (Hne & piece & Hin & E). split.
    + exists piece. auto.
    + destruct t; [congruence | reflexivity].
Qed.

(** The conditional expression of a list: it throws on a value without a
    [split] method, and gives the list of the value otherwise. *)
Lemma tool_list_spec (key : jsstring) (value : option arg_value) :
  (unsplittable value
   /\ tool_list key value = Throw (not_a_function (str "args." ++ key ++ str ".split")))
  \/ (~ unsplittable value /\ tool_list key value = Normal (tool_list_of value)).
Proof.
  destruct value as [[[|c s] | | items |] |]; cbn;
    solve [left; split; [exact I | reflexivity]
          | right; split; [intros [] | reflexivity]].
Qed.

(** The outcome of [parseCliArgs] in terms of the two lists. *)
Lemma parseCliArgs_result (args : minimist_args) :
  ((unsplittable (arg_enabled_tools args) \/ unsplittable (arg_disabled_tools args))
   /\ exists msg, parseCliArgs args = Throw (mkError TypeError msg))
  \/ (~ unsplittable (arg_enabled_tools args)
      /\ ~ unsplittable (arg_disabled_tools args)
      /\ parseCliArgs args
         = if list_nonempty (tool_list_of (arg_enabled_tools args))
              && list_nonempty (tool_list_of (arg_disabled_tools args))
           then Throw (mkError Error both_flags_message)
           else Normal {| enabledTools := tool_list_of (arg_enabled_tools args);
                          disabledTools := tool_list_of (arg_disabled_tools args) |}).
Proof.
  unfold parseCliArgs.
  destruct (tool_list_spec (str "enabled-tools") (arg_enabled_tools args))
    as [[He ->] | [He ->]]; cbn [bind].
  - left. split; [left; exact He | eexists; reflexivity].
  - destruct (tool_list_spec (str "disabled-tools") (arg_disabled_tools args))
      as [[Hd ->] | [Hd ->]]; cbn [bind].
    + left. split; [right; exact Hd | eexists; reflexivity].
    + right. split; [exact He |]. split; [exact Hd | reflexivity].
Qed.

(** C8, as the code has it.  On an option value without a [split] method
    (an array, when the option is given more than once) parsing throws a
    TypeError.  Otherwise each list is [null] when its option is absent,
    negated or has the empty string as value, and else the tokens of the
    value: its pieces between commas, trimmed, the empty ones dropped (an
    empty list when nothing is left).  Parsing fails with the error that
    names both flags exactly when both lists are non-empty. *)
Theorem parseCliArgs_lists (args : minimist_args) :
  let e := tool_list_of (arg_enabled_tools args) in
  let d := tool_list_of (arg_disabled_tools args) in
  (unsplittable (arg_enabled_tools args) \/ unsplittable (arg_disabled_tools args) ->
     exists msg, parseCliArgs args = Throw (mkError TypeError msg))
  /\ (~ unsplittable (arg_enabled_tools args) ->
      ~ unsplittable (arg_disabled_tools args) ->
      (list_of e <> [] /\ list_of d <> [] ->
         parseCliArgs args = Throw (mkError Error both_flags_message))
      /\ (list_of e = [] \/ list_of d = [] ->
         parseCliArgs args = Normal {| enabledTools := e; disabledTools := d |}))
  /\ (parseCliArgs args = Throw (mkError Error both_flags_message)
      <-> list_of e <> [] /\ list_of d <> []
          /\ ~ unsplittable (arg_enabled_tools args)
          /\ ~ unsplittable (arg_disabled_tools args))
  /\ (forall value,
        (value = None \/ value = Some arg_false \/ value = Some (arg_string [])
         -> tool_list_of value = None)
        /\ (forall s, s <> [] ->
              tool_list_of (Some (arg_string s)) = Some (parse_tool_list s)))
  /\ occurs (str "--enabled-tools") both_flags_message
  /\ occurs (str "--disabled-tools") both_flags_message
  /\ (forall v t, In t (parse_tool_list v)
        <-> t <> [] /\ exists piece, In piece (split comma v) /\ t = trim piece).
Proof.
  intros e d.
  assert (Hboth : list_nonempty e && list_nonempty d = true
                  <-> list_of e <> [] /\ list_of d <> []).
  { rewrite andb_true_iff, !list_nonempty_spec. reflexivity. }
  split; [| split; [| split; [| split; [| split; [| split]]]]].
  - intros Hu. destruct (parseCliArgs_result args) as [[_ E] | (He & Hd & _)];
      [exact E | tauto].
  - intros He Hd. destruct (parseCliArgs_result args) as [[Hu _] | (_ & _ & E)];
      [tauto |].
    rewrite E. fold e d.
    destruct (list_nonempty e && list_nonempty d); split; intros H.
    + reflexivity.
    + destruct (proj1 Hboth eq_refl) as [Be Bd]. destruct H; contradiction.
    + apply Hboth in H. discriminate H.
    + reflexivity.
  - destruct (parseCliArgs_result args) as [[Hu (msg & E)] | (He & Hd & E)].
    + rewrite E. split; [discriminate | tauto].
    + rewrite E. fold e d.
      destruct (list_nonempty e && list_nonempty d).
      * split; [intros _ | reflexivity]. destruct (proj1 Hboth eq_refl). tauto.
      * split; [discriminate |]. intros (H1 & H2 & _).
        assert (H : false = true) by (apply Hboth; tauto). discriminate H.
  - intros value. split.
    + intros [-> | [-> | ->]]; reflexivity.
    + intros [|c s] Hs; [congruence | reflexivity].
  - apply occursb_spec. vm_compute. reflexivity.
  - apply occursb_spec. vm_compute. reflexivity.
  - apply parse_tool_list_tokens.
Qed.

Lemma parseCliArgs_lists_witness :
  exists msg,
    parseCliArgs
      {| arg_enabled_tools :=
           Some (arg_array [arg_string (str "list_services");
                            arg_string (str "get_service")]);
         arg_disabled_tools := None |}
    = Throw (mkError TypeError msg).
Proof.
  refine (proj1 (parseCliArgs_lists
                   {| arg_enabled_tools :=
                        Some (arg_array [arg_string (str "list_services");
                                         arg_string (str "get_service")]);
                      arg_disabled_tools := None |}) _).
  left. exact I.
Defined.

(** The two flags given once each, with a tool each. *)
Example parseCliArgs_both_flags :
  parseCliArgs
    {| arg_enabled_tools := Some (arg_string (str "list_services, get_service"));
       arg_disabled_tools := Some (arg_string (str " get_service_log ,")) |}
  = Throw (mkError Error both_flags_message).
Proof. reflexivity. Qed.

(** C8 as stated fails on a value that holds no token: the list is the
    empty array, not [null]. *)
Lemma parseCliArgs_empty_list_not_null :
  parse_tool_list (str ",") = []
  /\ exists cfg,
       parseCliArgs {| arg_enabled_tools := Some (arg_string (str ","));
                       arg_disabled_tools := None |} = Normal cfg
       /\ enabledTools cfg = Some []
       /\ enabledTools cfg <> None.
Proof.
  split; [reflexivity |].
  eexists. split; [reflexivity |]. split; [reflexivity | discriminate].
Qed.

(** An option given twice: the value is an array, and the call of its
    [split] throws. *)
Lemma parseCliArgs_repeated_option :
  parseCliArgs
    {| arg_enabled_tools :=
         Some (arg_array [arg_string (str "list_services");
                          arg_string (str "get_service")]);
       arg_disabled_tools := None |}
  = Throw (mkError TypeError (str "args.enabled-tools.split is not a function")).
Proof. reflexivity. Qed.

(** ** Time arithmetic *)

Section TimeArithmetic.

Import JsDate.
Open Scope Z_scope.

Lemma round_double_small (z : Z) : Z.abs z < 2 ^ 53 -> round_double z = Fin z.
Proof.
  intros H. unfold round_double.
  destruct (Z.ltb_spec (Z.abs z) (2 ^ 53)); [reflexivity | lia].
Qed.

(** An even integer below 2^54 is a double. *)
Lemma round_double_even (z k : Z) :
  z = 2 * k -> Z.abs z < 2 ^ 54 -> round_double z = Fin z.
Proof.
  intros E H. unfold round_double.
  destruct (Z.ltb_spec (Z.abs z) (2 ^ 53)) as [|Hge]; [reflexivity |].
  assert (L : Z.log2 (Z.abs z) = 53).
  { apply Z.log2_unique; [lia |]. change (Z.succ 53) with 54. lia. }
  rewrite L. change (53 - 52) with 1. change (1 - 1) with 0.
  change (2 ^ 1) with 2. change (2 ^ 0) with 1.
  assert (R : Z.abs z mod 2 = 0).
  { replace (Z.abs z) with (Z.abs k * 2) by lia. apply Z.mod_mul. lia. }
  rewrite R. cbn [Z.ltb Z.eqb Z.compare orb andb].
  assert (Q : Z.abs z / 2 * 2 = Z.abs z).
  { pose proof (Z.div_mod (Z.abs z) 2). lia. }
  rewrite Q.
  destruct (Z.leb_spec (2 ^ 1024) (Z.abs z)) as [Hbig|_].
  - exfalso. assert (2 ^ 54 <= 2 ^ 1024) by (apply Z.pow_le_mono_r; lia). lia.
  - f_equal. lia.
Qed.

(** From 2^53 on, a rounded value is outside the range of dates. *)
Lemma round_double_large (z : Z) :
  2 ^ 53 <= Z.abs z -> Date_of (round_double z) = InvalidDate.
Proof.
  intros H. unfold round_double.
  destruct (Z.ltb_spec (Z.abs z) (2 ^ 53)) as [|_]; [lia |].
  set (a := Z.abs z) in *.
  assert (Ha : 0 < a) by (change (2 ^ 53) with 9007199254740992 in H; lia).
  destruct (Z.log2_spec a Ha) as [Hlo _].
  assert (HL : 53 <= Z.log2 a).
  { rewrite <- (Z.log2_pow2 53) by lia. apply Z.log2_le_mono, H. }
  set (s := Z.log2 a - 52) in *.
  assert (Hs : 1 <= s) by (subst s; lia).
  assert (Hp : 2 ^ Z.log2 a = 2 ^ 52 * 2 ^ s).
  { subst s. rewrite <- Z.pow_add_r by lia. f_equal. lia. }
  assert (HP : 2 <= 2 ^ s).
  { change 2 with (2 ^ 1) at 1. apply Z.pow_le_mono_r; lia. }
  set (P := 2 ^ s) in *.
  assert (Hq : 2 ^ 52 <= a / P).
  { apply Z.div_le_lower_bound; lia. }
  set (q := a / P) in *.
  set (q' := if (2 ^ (s - 1) <? a mod P) || ((a mod P =? 2 ^ (s - 1)) && Z.odd q)
             then q + 1 else q).
  assert (Hq' : q <= q') by (subst q'; destruct (_ || _); lia).
  assert (Hm : 2 ^ 53 <= q' * P).
  { change (2 ^ 53) with (2 ^ 52 * 2). change (2 ^ 52) with 4503599627370496 in *. nia. }
  destruct (Z.leb_spec (2 ^ 1024) (q' * P)).
  - destruct (z <? 0); reflexivity.
  - unfold Date_of.
    destruct (Z.leb_spec (Z.abs (Z.sgn z * (q' * P))) max_time) as [Hle|]; [| reflexivity].
    exfalso. unfold max_time in Hle.
    change (2 ^ 53) with 9007199254740992 in Hm.
    assert (Z.abs (Z.sgn z * (q' * P)) = q' * P).
    { rewrite Z.abs_mul. subst a. replace (Z.abs (Z.sgn z)) with 1 by lia. lia. }
    lia.
Qed.

Lemma digits_value_from (ds : jsstring) (acc : Z) :
  0 <= acc -> Forall (fun c => is_digit c = true) ds ->
  acc <= fold_left (fun acc c => 10 * acc + (Z.of_N c - 48)) ds acc.
Proof.
  intros Hacc H. revert acc Hacc.
  induction H as [|c ds Hc _ IH]; intros acc Hacc; cbn [fold_left]; [lia |].
  unfold is_digit in Hc. apply andb_true_iff in Hc. destruct Hc as [Hc _].
  apply N.leb_le, N2Z.inj_le in Hc. change (Z.of_N 48) with 48 in Hc.
  apply Z.le_trans with (10 * acc + (Z.of_N c - 48)); [lia | apply IH; lia].
Qed.

Lemma digits_value_nonneg (ds : jsstring) :
  Forall (fun c => is_digit c = true) ds -> 0 <= digits_value ds.
Proof. intros H. apply (digits_value_from ds 0); [lia | exact H]. Qed.

End TimeArithmetic.

(** ** The time range parser *)

Section TimeRange.

Import JsDate GcpLogs.

Lemma span_digits_inv (s ds rest : jsstring) :
  span_digits s = (ds, rest) ->
  s = ds ++ rest /\ Forall (fun c => is_digit c = true) ds.
Proof.
  revert ds rest. induction s as [|c s IH]; intros ds rest; simpl.
  - intros [= <- <-]. split; [reflexivity | constructor].
  - destruct (is_digit c) eqn:Hc.
    + destruct (span_digits s) as [ds' rest'].
      intros [= <- <-]. destruct (IH ds' rest' eq_refl) as [-> HF].
      split; [reflexivity | constructor; assumption].
    + intros [= <- <-]. split; [reflexivity | constructor].
Qed.

Lemma span_digits_app (ds rest : jsstring) :
  Forall (fun c => is_digit c = true) ds ->
  match rest with [] => True | c :: _ => is_digit c = false end ->
  span_digits (ds ++ rest) = (ds, rest).
Proof.
  intros H Hrest. induction H as [|c ds Hc _ IH]; simpl.
  - destruct rest as [|c rest]; [reflexivity |]. simpl. rewrite Hrest. reflexivity.
  - rewrite Hc, IH. reflexivity.
Qed.

Lemma unit_not_digit (u : char16) :
  u = unit_h \/ u = unit_m \/ u = unit_d -> is_digit u = false.
Proof. intros [-> | [-> | ->]]; reflexivity. Qed.

Lemma unit_test (u : char16) :
  (N.eqb u unit_h || N.eqb u unit_m || N.eqb u unit_d)%bool = true
  <-> u = unit_h \/ u = unit_m \/ u = unit_d.
Proof. rewrite !orb_true_iff, !N.eqb_eq. tauto. Qed.

(** The regular expression matches exactly the time range tokens, and
    captures the digits and the unit. *)
Lemma match_time_range_spec (s amount : jsstring) (u : char16) :
  match_time_range s = Some (amount, u) <-> time_token s amount u.
Proof.
  unfold match_time_range, time_token. split.
  - destruct (span_digits s) as [ds rest] eqn:E.
    apply span_digits_inv in E. destruct E as [-> HF].
    destruct ds as [|c ds]; [discriminate |].
    destruct rest as [|u' [|? ?]]; try discriminate.
    destruct (N.eqb u' unit_h || N.eqb u' unit_m || N.eqb u' unit_d)%bool eqn:Hu;
      [| discriminate].
    intros [= <- <-]. apply unit_test in Hu.
    repeat split; [discriminate | assumption | assumption].
  - intros (-> & Hne & HF & Hu).
    rewrite span_digits_app; [| assumption | apply unit_not_digit, Hu].
    destruct amount as [|c ds]; [congruence |].
    apply unit_test in Hu. rewrite Hu. reflexivity.
Qed.

Lemma match_time_range_none (s : jsstring) :
  match_time_range s = None <-> ~ exists amount u, time_token s amount u.
Proof.
  split.
  - intros E (amount & u & H). apply match_time_range_spec in H. congruence.
  - intros H. destruct (match_time_range s) as [[amount u]|] eqn:E; [| reflexivity].
    exfalso. apply H. exists amount, u. apply match_time_range_spec, E.
Qed.

(** X2.  A time range that is not a token [<digits><h|m|d>] yields no
    clause ([null]), and no exception. *)
Theorem buildTimeRangeFilter_malformed (now : Z) (s : jsstring) :
  (~ exists amount u, time_token s amount u) ->
  buildTimeRangeFilter now s = Normal None.
Proof.
  intros H. apply match_time_range_none in H.
  unfold buildTimeRangeFilter. rewrite H. reflexivity.
Qed.

Open Scope Z_scope.

(** The start time is exact as long as it is a date: the doubles of the
    computation are the integers they stand for. *)
Lemma start_time_exact (now n : Z) (u : char16) :
  Z.abs now <= max_time -> 0 <= n ->
  - max_time <= now - n * unit_ms u ->
  (u = unit_h ->
   Date_of (sub_from now (mul_const (mul_const (mul_const (round_double n) 60) 60) 1000))
   = ValidDate (now - n * unit_ms u))
  /\ (u = unit_d ->
   Date_of (sub_from now
              (mul_const (mul_const (mul_const (mul_const (round_double n) 24) 60) 60) 1000))
   = ValidDate (now - n * unit_ms u))
  /\ (u = unit_m ->
   Date_of (sub_from now (mul_const (mul_const (round_double n) 60) 1000))
   = ValidDate (now - n * unit_ms u)).
Proof.
  unfold max_time. intros Hnow Hn Hlo.
  assert (P53 : 2 ^ 53 = 9007199254740992) by reflexivity.
  assert (P54 : 2 ^ 54 = 18014398509481984) by reflexivity.
  assert (Hdate : forall t, Z.abs t <= 8640000000000000 ->
                            Date_of (round_double t) = ValidDate t).
  { intros t Ht. rewrite round_double_small by lia.
    unfold Date_of, max_time. destruct (Z.leb_spec (Z.abs t) 8640000000000000); [reflexivity | lia]. }
  repeat split; intros ->.
  - change (unit_ms unit_h) with 3600000 in *.
    rewrite (round_double_small n) by lia. cbn [mul_const].
    rewrite (round_double_small (n * 60)) by lia. cbn [mul_const].
    rewrite (round_double_small (n * 60 * 60)) by lia. cbn [mul_const].
    rewrite (round_double_even (n * 60 * 60 * 1000) (n * 1800000)) by lia.
    cbn [sub_from]. replace (n * 60 * 60 * 1000) with (n * 3600000) by lia.
    apply Hdate. lia.
  - change (unit_ms unit_d) with 86400000 in *.
    rewrite (round_double_small n) by lia. cbn [mul_const].
    rewrite (round_double_small (n * 24)) by lia. cbn [mul_const].
    rewrite (round_double_small (n * 24 * 60)) by lia. cbn [mul_const].
    rewrite (round_double_small (n * 24 * 60 * 60)) by lia. cbn [mul_const].
    rewrite (round_double_even (n * 24 * 60 * 60 * 1000) (n * 43200000)) by lia.
    cbn [sub_from]. replace (n * 24 * 60 * 60 * 1000) with (n * 86400000) by lia.
    apply Hdate. lia.
  - change (unit_ms unit_m) with 60000 in *.
    rewrite (round_double_small n) by lia. cbn [mul_const].
    rewrite (round_double_small (n * 60)) by lia. cbn [mul_const].
    rewrite (round_double_even (n * 60 * 1000) (n * 30000)) by lia.
    cbn [sub_from]. replace (n * 60 * 1000) with (n * 60000) by lia.
    apply Hdate. lia.
Qed.

(** For a time range token whose start time is a date, the clause bounds
    the timestamp by the instant [now] minus the amount times the length of
    the unit. *)
Lemma buildTimeRangeFilter_in_range (now : Z) (s amount : jsstring) (u : char16) :
  time_token s amount u ->
  Z.abs now <= max_time ->
  - max_time <= now - digits_value amount * unit_ms u ->
  buildTimeRangeFilter now s
  = Normal (Some (time_clause (now - digits_value amount * unit_ms u))).
Proof.
  intros Htok Hnow Hlo.
  pose proof Htok as (_ & _ & HF & Hu).
  apply match_time_range_spec in Htok.
  unfold buildTimeRangeFilter. rewrite Htok. unfold parseInt.
  destruct (start_time_exact now (digits_value amount) u Hnow
              (digits_value_nonneg amount HF) Hlo) as (Hh & Hd & Hm).
  destruct Hu as [-> | [-> | ->]].
  - rewrite (Hh eq_refl). reflexivity.
  - rewrite (Hm eq_refl). reflexivity.
  - rewrite (Hd eq_refl). reflexivity.
Qed.

End TimeRange.

(** ** Start times outside the range of dates *)

Section OutOfRange.

Import JsDate GcpLogs.
Open Scope Z_scope.

Lemma round_double_at_least (k z : Z) :
  53 <= k -> 2 ^ k <= z -> at_least (2 ^ k) (round_double z).
Proof.
  intros Hk Hz.
  assert (H53 : 2 ^ 53 <= 2 ^ k) by (apply Z.pow_le_mono_r; lia).
  assert (Hpos : 0 < z) by (change (2 ^ 53) with 9007199254740992 in H53; lia).
  unfold round_double. rewrite (Z.abs_eq z) by lia.
  destruct (Z.ltb_spec z (2 ^ 53)) as [|_]; [lia |].
  destruct (Z.log2_spec z Hpos) as [Hlo _].
  assert (HL : k <= Z.log2 z).
  { rewrite <- (Z.log2_pow2 k) by lia. apply Z.log2_le_mono, Hz. }
  assert (HLk : 2 ^ k <= 2 ^ Z.log2 z) by (apply Z.pow_le_mono_r; lia).
  set (s := Z.log2 z - 52) in *.
  assert (Hp : 2 ^ Z.log2 z = 2 ^ 52 * 2 ^ s).
  { subst s. rewrite <- Z.pow_add_r by lia. f_equal. lia. }
  assert (HP : 0 < 2 ^ s) by (apply Z.pow_pos_nonneg; lia).
  set (P := 2 ^ s) in *.
  assert (Hq : 2 ^ 52 <= z / P) by (apply Z.div_le_lower_bound; lia).
  set (q := z / P) in *.
  set (q' := if (2 ^ (s - 1) <? z mod P) || ((z mod P =? 2 ^ (s - 1)) && Z.odd q)
             then q + 1 else q).
  assert (Hq' : q <= q') by (subst q'; destruct (_ || _); lia).
  assert (Hm : 2 ^ k <= q' * P).
  { apply Z.le_trans with (2 ^ Z.log2 z); [assumption |]. rewrite Hp.
    change (2 ^ 52) with 4503599627370496 in *. nia. }
  destruct (Z.leb_spec (2 ^ 1024) (q' * P)).
  - destruct (Z.ltb_spec z 0); [lia | exact I].
  - simpl. rewrite Z.sgn_pos by lia. lia.
Qed.

Lemma tracks_parseInt (n c : Z) :
  0 <= n -> 2 <= c -> Z.even c = true ->
  tracks (mul_const (round_double n) c) (n * c).
Proof.
  intros Hn Hc He.
  assert (P53 : 2 ^ 53 = 9007199254740992) by reflexivity.
  assert (P54 : 2 ^ 54 = 18014398509481984) by reflexivity.
  destruct (Z.even_spec c) as [[h Hh] _]; [assumption |].
  destruct (Z.lt_ge_cases n (2 ^ 53)) as [Hsmall | Hbig].
  - rewrite round_double_small by lia. cbn [mul_const].
    destruct (Z.lt_ge_cases (n * c) (2 ^ 54)) as [Hx | Hx].
    + left. split; [assumption |].
      apply (round_double_even (n * c) (n * h)); nia.
    + right. split; [assumption |]. apply round_double_at_least; lia.
  - right. split; [nia |].
    pose proof (round_double_at_least 53 n ltac:(lia) Hbig) as Hv.
    destruct (round_double n) as [m | | |]; cbn [at_least mul_const] in *;
      try contradiction; [| exact I].
    apply round_double_at_least; [lia | nia].
Qed.

Lemma tracks_mul (v : number) (z c : Z) :
  0 <= z -> 2 <= c -> Z.even c = true ->
  tracks v z -> tracks (mul_const v c) (z * c).
Proof.
  intros Hz Hc He [[Hsmall ->] | [Hbig Hv]].
  - assert (P54 : 2 ^ 54 = 18014398509481984) by reflexivity.
    destruct (Z.even_spec c) as [[h Hh] _]; [assumption |].
    cbn [mul_const].
    destruct (Z.lt_ge_cases (z * c) (2 ^ 54)) as [Hx | Hx].
    + left. split; [assumption |].
      apply (round_double_even (z * c) (z * h)); nia.
    + right. split; [assumption |]. apply round_double_at_least; lia.
  - right. assert (P54 : 2 ^ 54 = 18014398509481984) by reflexivity.
    split; [nia |].
    destruct v as [m | | |]; cbn [at_least mul_const] in *;
      try contradiction; [| exact I].
    apply round_double_at_least; [lia | nia].
Qed.

(** A start time before the first date is the invalid date. *)
Lemma start_time_invalid (now x : Z) (v : number) :
  Z.abs now <= max_time -> tracks v x -> now - x < - max_time ->
  Date_of (sub_from now v) = InvalidDate.
Proof.
  unfold max_time. intros Hnow Hv Hlow.
  assert (P53 : 2 ^ 53 = 9007199254740992) by reflexivity.
  assert (P54 : 2 ^ 54 = 18014398509481984) by reflexivity.
  destruct Hv as [[Hsmall ->] | [Hbig Hv]].
  - cbn [sub_from].
    destruct (Z.lt_ge_cases (Z.abs (now - x)) (2 ^ 53)) as [Hs | Hl].
    + rewrite round_double_small by assumption. unfold Date_of, max_time.
      destruct (Z.leb_spec (Z.abs (now - x)) 8640000000000000); [lia | reflexivity].
    + apply round_double_large, Hl.
  - destruct v as [m | | |]; cbn [at_least sub_from] in *; try contradiction.
    + apply round_double_large. lia.
    + reflexivity.
Qed.

End OutOfRange.

Section LogQuery.

Import JsDate GcpLogs.
Open Scope Z_scope.

(** C4, at the inputs where the code departs from it.  A time range token
    whose start time lies before the first date makes
    [buildTimeRangeFilter] throw a RangeError: [toISOString] is called on
    the invalid date. *)
Theorem buildTimeRangeFilter_out_of_range (now : Z) (s amount : jsstring) (u : char16) :
  time_token s amount u ->
  Z.abs now <= max_time ->
  now - digits_value amount * unit_ms u < - max_time ->
  buildTimeRangeFilter now s = Throw (mkError RangeError (str "Invalid time value")).
Proof.
  intros Htok Hnow Hlow.
  pose proof Htok as (_ & _ & HF & Hu).
  apply match_time_range_spec in Htok.
  unfold buildTimeRangeFilter. rewrite Htok. unfold parseInt.
  pose proof (digits_value_nonneg amount HF) as Hn.
  set (n := digits_value amount) in *.
  destruct Hu as [-> | [-> | ->]].
  - change (unit_ms unit_h) with 3600000 in Hlow.
    assert (T : tracks (mul_const (mul_const (mul_const (round_double n) 60) 60) 1000)
                       (n * 60 * 60 * 1000)).
    { apply tracks_mul; [lia | lia | reflexivity |].
      apply tracks_mul; [lia | lia | reflexivity |].
      apply tracks_parseInt; [lia | lia | reflexivity]. }
    change (N.eqb unit_h unit_h) with true. cbv iota.
    rewrite (start_time_invalid now _ _ Hnow T) by lia. reflexivity.
  - change (unit_ms unit_m) with 60000 in Hlow.
    assert (T : tracks (mul_const (mul_const (round_double n) 60) 1000) (n * 60 * 1000)).
    { apply tracks_mul; [lia | lia | reflexivity |].
      apply tracks_parseInt; [lia | lia | reflexivity]. }
    change (N.eqb unit_m unit_h) with false. change (N.eqb unit_m unit_d) with false.
    change (N.eqb unit_m unit_m) with true. cbv iota.
    rewrite (start_time_invalid now _ _ Hnow T) by lia. reflexivity.
  - change (unit_ms unit_d) with 86400000 in Hlow.
    assert (T : tracks (mul_const (mul_const (mul_const (mul_const (round_double n) 24) 60)
                                     60) 1000)
                       (n * 24 * 60 * 60 * 1000)).
    { apply tracks_mul; [lia | lia | reflexivity |].
      apply tracks_mul; [lia | lia | reflexivity |].
      apply tracks_mul; [lia | lia | reflexivity |].
      apply tracks_parseInt; [lia | lia | reflexivity]. }
    change (N.eqb unit_d unit_h) with false. change (N.eqb unit_d unit_d) with true.
    cbv iota.
    rewrite (start_time_invalid now _ _ Hnow T) by lia. reflexivity.
Qed.

Lemma token_10000000000h :
  time_token (str "10000000000h") (str "10000000000") unit_h.
Proof.
  split; [reflexivity |]. split; [discriminate |].
  split; [| left; reflexivity].
  repeat constructor.
Defined.

Lemma buildTimeRangeFilter_out_of_range_witness :
  buildTimeRangeFilter 1762041600000 (str "10000000000h")
  = Throw (mkError RangeError (str "Invalid time value")).
Proof.
  apply (buildTimeRangeFilter_out_of_range 1762041600000 (str "10000000000h")
           (str "10000000000") unit_h token_10000000000h).
  - vm_compute. discriminate.
  - vm_compute. reflexivity.
Defined.

(** The last step of the filter query: the time range clause is added to
    the parts collected so far. *)
Lemma time_range_part (now : Z) (o : log_options) (parts : list jsstring) :
  time_range_ok now o -> Z.abs now <= max_time ->
  match timeRange o with
  | Some tr =>
      if str_truthy tr then
        timeFilter <- buildTimeRangeFilter now tr ;;
        Normal (match timeFilter with
                | Some tf => if str_truthy tf then push parts tf else parts
                | None => parts
                end)
      else Normal parts
  | None => Normal parts
  end
  = Normal (parts ++ match timeRange o with
                     | Some tr =>
                         match match_time_range tr with
                         | Some (amount, u) =>
                             [time_clause (now - digits_value amount * unit_ms u)]
                         | None => []
                         end
                     | None => []
                     end).
Proof.
  intros Hok Hnow. unfold time_range_ok in Hok.
  destruct (timeRange o) as [tr|]; [| rewrite app_nil_r; reflexivity].
  destruct (match_time_range tr) as [[amount u]|] eqn:E.
  - pose proof E as Htok. apply match_time_range_spec in Htok.
    rewrite (buildTimeRangeFilter_in_range now tr amount u Htok Hnow
               (Hok tr amount u eq_refl E)).
    destruct tr as [|c tr]; [discriminate E | reflexivity].
  - destruct tr as [|c tr]; [rewrite app_nil_r; reflexivity |].
    unfold buildTimeRangeFilter. rewrite E. cbn. rewrite app_nil_r. reflexivity.
Qed.

(** C2, as the code has it.  Whenever the start time of the time range is
    a date, the filter query is the join with [" AND "] of the clauses in
    their fixed order: [(filter)] when the filter is a non-empty string,
    [resource.type="..."] when the resource type is a non-empty string,
    [severity>=...] when the severity is a non-empty string other than
    [DEFAULT], and the time range clause when the time range is a token
    [<digits><h|m|d>].  With no clause the query is the empty string. *)
Theorem filterQuery_is_and_join (now : Z) (o : log_options) :
  Z.abs now <= max_time ->
  time_range_ok now o ->
  filterQuery now o = Normal (join (str " AND ") (expected_clauses now o))
  /\ (expected_clauses now o = [] -> filterQuery now o = Normal [])
  /\ (forall tr amount u,
        match_time_range tr = Some (amount, u) <-> time_token tr amount u).
Proof.
  intros Hnow Hok.
  assert (E : filterQuery now o = Normal (join (str " AND ") (expected_clauses now o))).
  { unfold filterQuery, expected_clauses, default.
    rewrite (time_range_part now o _ Hok Hnow). cbn [bind]. f_equal. f_equal.
    unfold push.
    destruct (filter o) as [[|c1 f]|], (resourceType o) as [[|c2 rt]|],
      (severity o) as [[|c3 sv]|];
      cbn [supplied List.map List.filter str_truthy app andb negb];
      try reflexivity;
      destruct (eqb_str (c3 :: sv) (str "DEFAULT")); reflexivity. }
  split; [exact E |].
  split; [intros Hnone; rewrite E, Hnone; reflexivity |].
  apply match_time_range_spec.
Qed.

End LogQuery.

Section LogQueryExamples.

Import JsDate GcpLogs.
Open Scope Z_scope.

Lemma filterQuery_is_and_join_witness :
  filterQuery 1762041600000
    {| filter := Some (str "foo");
       resourceType := Some (str "cloud_run_revision");
       severity := Some (str "ERROR");
       timeRange := Some (str "1h");
       limit := None; orderBy := None; pageToken := None |}
  = Normal (str "(foo) AND resource.type=" ++ dquote ++ str "cloud_run_revision"
              ++ dquote ++ str " AND severity>=ERROR AND timestamp>=" ++ dquote
              ++ str "2025-11-01T23:00:00.000Z" ++ dquote).
Proof.
  refine (proj1 (filterQuery_is_and_join 1762041600000 _ _ _)).
  - vm_compute. discriminate.
  - intros tr amount u [= <-] E. vm_compute in E. injection E as <- <-.
    vm_compute. discriminate.
Defined.

(** C2 as stated fails on an option supplied with the empty string: the
    filter [""] is present, and no clause [()] is made for it. *)
Lemma filterQuery_empty_filter_supplied :
  let o := {| filter := Some []; resourceType := None; severity := None;
              timeRange := None; limit := None; orderBy := None;
              pageToken := None |} in
  filter o <> None
  /\ filterQuery 0 o = Normal []
  /\ filterQuery 0 o <> Normal (str "(" ++ [] ++ str ")").
Proof.
  cbv zeta. split; [discriminate |]. split; [reflexivity | discriminate].
Qed.

(** C9.  The request that [getLogs] hands to the logging backend has the
    page size [min(limit, 1000)], with 100 for an absent limit, so never
    more than 1000; the backend is called with that request and no other.
    When no request can be prepared, [getLogs] throws and the backend is
    not called. *)
Theorem getLogs_pageSize
    (getEntries : request_options -> completion entries_response)
    (now : Z) (o : log_options) :
  match requestOptions now o with
  | Normal request =>
      req_pageSize request = Z.min (default 100 (limit o)) 1000
      /\ req_pageSize request <= 1000
      /\ getLogs getEntries now o =
         (response <- getEntries request ;;
          Normal {| result_logs := List.map formatLogEntry (entries response);
                    result_nextPageToken := api_nextPageToken response;
                    result_totalCount := length (entries response);
                    result_query := req_filter request |})
  | Throw e => getLogs getEntries now o = Throw e
  end.
Proof.
  unfold getLogs, requestOptions.
  destruct (filterQuery now o) as [q | e]; cbn [bind try_catch].
  - split; [reflexivity |]. split; [apply Z.le_min_r |].
    destruct (getEntries _) as [response | e]; reflexivity.
  - reflexivity.
Qed.

(** A requested limit of 5000 is sent as a page size of 1000. *)
Lemma getLogs_pageSize_witness :
  match requestOptions 1762041600000
          {| filter := None; resourceType := None; severity := None;
             timeRange := None; limit := Some 5000; orderBy := None;
             pageToken := None |} with
  | Normal request => req_pageSize request = 1000
  | Throw _ => False
  end.
Proof.
  exact (proj1 (getLogs_pageSize (fun _ => Throw (mkError Error [])) 1762041600000
                  {| filter := None; resourceType := None; severity := None;
                     timeRange := None; limit := Some 5000; orderBy := None;
                     pageToken := None |})).
Defined.

End LogQueryExamples.

(** ** The table of log entries *)

Section Table.

Import JsDate GcpLogs.

Lemma max_of_list_max (h : nat) (l : list nat) : max_of h l = list_max (h :: l).
Proof.
  unfold max_of. revert h. induction l as [|x l IH]; intros h; simpl.
  - rewrite Nat.max_0_r. reflexivity.
  - rewrite IH. simpl. rewrite Nat.max_assoc. reflexivity.
Qed.

Lemma colWidths_spec (entries : list log_entry) :
  colWidths (List.map row_of entries)
  = [column_width 0 entries; column_width 1 entries;
     column_width 2 entries; column_width 3 entries].
Proof.
  unfold colWidths, mapi, headers, column_width. cbn [mapi_from].
  rewrite !max_of_list_max, !map_map. reflexivity.
Qed.

Lemma cell_fits (entries : list log_entry) (e : log_entry) (i : nat) :
  In e entries -> length (cell (row_of e) i) <= column_width i entries.
Proof.
  intros Hin. unfold column_width.
  assert (H : Forall (fun k => k <= list_max
                (length (nth i headers [])
                 :: List.map (fun e => length (cell (row_of e) i)) entries))
              (length (nth i headers [])
               :: List.map (fun e => length (cell (row_of e) i)) entries)).
  { apply list_max_le. apply Nat.le_refl. }
  rewrite Forall_forall in H. apply H. right.
  apply in_map_iff. exists e. split; [reflexivity | assumption].
Qed.

Lemma padded_length (w : nat) (c : jsstring) :
  length c <= w -> length (padded w c) = w.
Proof.
  intros H. unfold padded. rewrite length_app, repeat_length. lia.
Qed.

Lemma message_cell_spec (d : jsstring) :
  (length d <= 100 -> message_cell d = d)
  /\ (100 < length d -> message_cell d = firstn 100 d ++ str "...").
Proof.
  unfold message_cell. destruct (Nat.leb_spec (length d) 100); split; intros; try lia;
    reflexivity.
Qed.

Lemma row_message (e : log_entry) : cell (row_of e) 3 = message_cell (logData e).
Proof.
  unfold row_of, cell, message_cell, substring0. cbn [nth].
  destruct (Nat.leb_spec (length (logData e)) 100) as [Hle | Hgt].
  - assert (Nat.ltb 100 (length (logData e)) = false) as -> by (apply Nat.ltb_ge; lia).
    rewrite app_nil_r. apply firstn_all2. assumption.
  - assert (Nat.ltb 100 (length (logData e)) = true) as -> by (apply Nat.ltb_lt; lia).
    reflexivity.
Qed.

Lemma digits_fixed_length (w : nat) (n : Z) : length (digits_fixed w n) = w.
Proof.
  revert n. induction w as [|w IH]; intros n; simpl; [reflexivity |].
  rewrite length_app, IH. simpl. lia.
Qed.

(** An ISO timestamp has 24 code units, or 27 with a signed year. *)
Lemma iso_string_length (t : Z) : 24 <= length (iso_string t).
Proof.
  unfold iso_string. destruct (civil_of_days _) as [[y m] d].
  repeat rewrite length_app. rewrite !digits_fixed_length.
  assert (4 <= length (iso_year y)).
  { unfold iso_year. destruct (_ && _).
    - rewrite digits_fixed_length. lia.
    - rewrite length_app, digits_fixed_length. lia. }
  simpl. lia.
Qed.

(** C6, as the code has it.  For a non-empty list of entries the table is
    the header row, the rule and one row per entry, joined by newlines.
    The width of each of the four columns is the largest length among its
    header and its cells.  The timestamp cell is the first 19 code units
    of the timestamp (the whole timestamp when it is shorter, 19 code
    units for every timestamp made by [toISOString]); the message cell is
    the log data, cut at 100 code units and followed by three dots exactly
    when it is longer.  Every cell is followed by spaces up to the width
    of its column, and the cells of a row are joined by [" | "]. *)
Theorem formatLogsAsTable_layout (entries : list log_entry) :
  entries <> [] ->
  let rows := List.map row_of entries in
  let w := fun i => column_width i entries in
  headers = [str "Timestamp"; str "Severity"; str "Resource"; str "Message"]
  /\ colWidths rows = [w 0; w 1; w 2; w 3]
  /\ formatLogsAsTable entries
     = join newline
         (format_row (colWidths rows) headers
          :: join (str "-+-") (List.map (repeat_char 45%N) (colWidths rows))
          :: List.map (format_row (colWidths rows)) rows)
  /\ format_row (colWidths rows) headers
     = padded (w 0) (str "Timestamp") ++ str " | "
       ++ padded (w 1) (str "Severity") ++ str " | "
       ++ padded (w 2) (str "Resource") ++ str " | "
       ++ padded (w 3) (str "Message")
  /\ (forall e, In e entries ->
        cell (row_of e) 0 = firstn 19 (timestamp e)
        /\ length (cell (row_of e) 0) = Nat.min 19 (length (timestamp e))
        /\ cell (row_of e) 3 = message_cell (logData e)
        /\ format_row (colWidths rows) (row_of e)
           = padded (w 0) (cell (row_of e) 0) ++ str " | "
             ++ padded (w 1) (cell (row_of e) 1) ++ str " | "
             ++ padded (w 2) (cell (row_of e) 2) ++ str " | "
             ++ padded (w 3) (cell (row_of e) 3)
        /\ (forall i, i < 4 -> length (padded (w i) (cell (row_of e) i)) = w i))
  /\ (forall raw t, meta_timestamp raw = Some t ->
        length (cell (row_of (formatLogEntry raw)) 0) = 19)
  /\ (forall d, (length d <= 100 -> message_cell d = d)
                /\ (100 < length d -> message_cell d = firstn 100 d ++ str "...")).
Proof.
  intros Hne rows w.
  split; [reflexivity |].
  split; [apply colWidths_spec |].
  split.
  { unfold formatLogsAsTable. destruct entries; [congruence | reflexivity]. }
  split.
  { subst rows. rewrite colWidths_spec. reflexivity. }
  split.
  { intros e Hin.
    split; [reflexivity |].
    split; [apply length_firstn |].
    split; [apply row_message |].
    split.
    - subst rows. rewrite colWidths_spec. reflexivity.
    - intros i Hi. apply padded_length, cell_fits, Hin. }
  split.
  { intros raw t Ht. unfold formatLogEntry, row_of, cell, substring0. rewrite Ht.
    cbn [nth timestamp]. rewrite length_firstn.
    pose proof (iso_string_length t). lia. }
  apply message_cell_spec.
Qed.

Lemma formatLogsAsTable_layout_witness :
  formatLogsAsTable
    [formatLogEntry {| meta_timestamp := Some 1762041600123%Z;
                       meta_severity := Some (str "ERROR");
                       meta_resource_type := Some (str "cloud_run_revision");
                       meta_httpRequest := None;
                       data := DataText (str "boom") |}]
  = str "Timestamp           | Severity | Resource           | Message" ++ newline
    ++ str "--------------------+----------+--------------------+--------" ++ newline
    ++ str "2025-11-02T00:00:00 | ERROR    | cloud_run_revision | boom   ".
Proof.
  refine (proj1 (proj2 (proj2 (formatLogsAsTable_layout
    [formatLogEntry {| meta_timestamp := Some 1762041600123%Z;
                       meta_severity := Some (str "ERROR");
                       meta_resource_type := Some (str "cloud_run_revision");
                       meta_httpRequest := None;
                       data := DataText (str "boom") |}] _)))).
  discriminate.
Defined.

(** C6 as stated fails on an entry without timestamp: [formatLogEntry]
    gives it the timestamp [N/A], and its timestamp cell has 3 code units,
    not 19.  The padding of a cell follows it. *)
Lemma table_timestamp_cell_shorter :
  let e := formatLogEntry {| meta_timestamp := None;
                             meta_severity := Some (str "INFO");
                             meta_resource_type := None;
                             meta_httpRequest := None;
                             data := DataText (str "started") |} in
  cell (row_of e) 0 = str "N/A"
  /\ length (cell (row_of e) 0) <> 19
  /\ formatLogsAsTable [e]
     = str "Timestamp | Severity | Resource | Message" ++ newline
       ++ str "----------+----------+----------+--------" ++ newline
       ++ str "N/A       | INFO     | unknown  | started".
Proof.
  cbv zeta. split; [reflexivity |]. split; [discriminate | reflexivity].
Qed.

End Table.

(** ** The service log loop *)

Section ServiceLogLoop.

Import Tools.

Variable request : Type.
Variables project region service : jsval.

Lemma fetch_pages_script (init : list (option jsstring * request))
    (last_logs : option jsstring) (rest : list (log_page request)) :
  forall (fuel : nat) (acc : list jsstring) (made : list (option request))
         (requestOptions : option request),
    length init < fuel ->
    fetch_pages stub_getServiceLogs fuel
      {| script := pages_of init last_logs ++ rest; calls := made |}
      project region service acc requestOptions
    = Some (Normal (acc ++ page_texts init last_logs),
            {| script := rest;
               calls := made ++ requestOptions
                          :: List.map (fun p => Some (snd p)) init |}).
Proof.
  induction init as [|[l r] init IH]; intros fuel acc made ro Hfuel;
    (destruct fuel as [|fuel]; [inversion Hfuel |]).
  - unfold pages_of, page_texts. cbn.
    destruct last_logs as [[|c l]|]; cbn; rewrite ?app_nil_r; reflexivity.
  - simpl in Hfuel. apply PeanoNat.lt_S_n in Hfuel.
    unfold pages_of in *. cbn [List.map app fetch_pages stub_getServiceLogs script
                               logs next_requestOptions fst snd calls].
    rewrite IH by assumption. unfold page_texts. cbn [flat_map fst List.map snd].
    rewrite <- !app_assoc. cbn [app].
    destruct l as [[|c l]|]; cbn [str_truthy supplied app];
      rewrite ?app_nil_r, <- ?app_assoc; reflexivity.
Qed.

(** C3, as the code has it.  When the backend answers with pages of which
    all but the last carry request options for a next page, the handler
    calls [getServiceLogs] once per page, the first time with no request
    options and then with the ones the previous page returned, stops at
    the page that carries none, and returns the log texts of the pages
    that have a non-empty one, in the order of the pages, joined by
    newlines. *)
Theorem get_service_log_pages (init : list (option jsstring * request))
    (last_logs : option jsstring) (rest : list (log_page request)) (fuel : nat) :
  length init < fuel ->
  get_service_log stub_getServiceLogs fuel
    {| script := pages_of init last_logs ++ rest; calls := [] |}
    project region service
  = Some (Normal (text_content (join GcpLogs.newline (page_texts init last_logs))),
          {| script := rest;
             calls := None :: List.map (fun p => Some (snd p)) init |})
  /\ length (None :: List.map (fun p => Some (snd p)) init)
     = length (pages_of init last_logs).
Proof.
  intros Hfuel. split.
  - unfold get_service_log.
    rewrite (fetch_pages_script init last_logs rest fuel [] [] None Hfuel).
    reflexivity.
  - unfold pages_of. cbn [length]. rewrite length_app, !length_map. cbn [length]. lia.
Qed.

End ServiceLogLoop.

(** Three pages of two, two and one entries with the tokens [t1], [t2] and
    none: three calls, the tokens passed on, the five entries in order. *)
Lemma get_service_log_pages_witness :
  Tools.get_service_log Tools.stub_getServiceLogs 3
    {| Tools.script :=
         [ {| Tools.logs := Some (str "e1" ++ GcpLogs.newline ++ str "e2");
              Tools.next_requestOptions := Some (str "t1") |};
           {| Tools.logs := Some (str "e3" ++ GcpLogs.newline ++ str "e4");
              Tools.next_requestOptions := Some (str "t2") |};
           {| Tools.logs := Some (str "e5");
              Tools.next_requestOptions := None |} ];
       Tools.calls := [] |}
    (Tools.VString (str "p")) (Tools.VString (str "r")) (Tools.VString (str "s"))
  = Some (Normal (Tools.text_content
                    (str "e1" ++ GcpLogs.newline ++ str "e2" ++ GcpLogs.newline
                     ++ str "e3" ++ GcpLogs.newline ++ str "e4" ++ GcpLogs.newline
                     ++ str "e5")),
          {| Tools.script := [];
             Tools.calls := [None; Some (str "t1"); Some (str "t2")] |}).
Proof.
  refine (proj1 (get_service_log_pages jsstring
                   (Tools.VString (str "p")) (Tools.VString (str "r"))
                   (Tools.VString (str "s"))
                   [(Some (str "e1" ++ GcpLogs.newline ++ str "e2"), str "t1");
                    (Some (str "e3" ++ GcpLogs.newline ++ str "e4"), str "t2")]
                   (Some (str "e5")) [] 3 _)).
  simpl. lia.
Defined.

(** C3 as stated fails on a page whose log text is empty: the page is left
    out, and the result is not the join of the texts of all the pages. *)
Lemma get_service_log_skips_empty_page :
  let pages := [ {| Tools.logs := Some (str "a");
                    Tools.next_requestOptions := Some tt |};
                 {| Tools.logs := Some [];
                    Tools.next_requestOptions := None |} ] in
  Tools.get_service_log Tools.stub_getServiceLogs 2
    {| Tools.script := pages; Tools.calls := [] |}
    (Tools.VString (str "p")) (Tools.VString (str "r")) (Tools.VString (str "s"))
  = Some (Normal (Tools.text_content (str "a")),
          {| Tools.script := []; Tools.calls := [None; Some tt] |})
  /\ join GcpLogs.newline [str "a"; []] = str "a" ++ GcpLogs.newline
  /\ str "a" <> join GcpLogs.newline [str "a"; []].
Proof.
  cbv zeta. split; [reflexivity |]. split; [reflexivity | discriminate].
Qed.

(** ** Validation in the handlers *)

Section HandlerValidation.

Import Tools.

Variable listProjects : completion (list jsstring).
Variable createProjectAndAttachBilling : jsval -> completion jsval.
Variable listServices : jsval -> jsval -> completion (list service_info).
Variable getService : jsval -> jsval -> jsval -> completion (option service_info).
Variable getResourceTypes : jsval -> completion (list jsstring).
Variable deploy : deploy_request -> completion jsstring.
Variable skipIamCheck_flag : bool.
Variable getLogs : jsval -> GcpLogs.log_options -> completion GcpLogs.logs_result.
Variable stringify : list GcpLogs.log_entry -> jsstring.

(** X3.  The handlers of the project and query tools return a payload
    whatever their arguments and whatever the backend does: no exception
    leaves them.  An argument that fails the validation gives the payload
    of the validation error, and an exception of the backend gives the
    payload of the [catch] block, which ends with the message of the
    exception. *)
Theorem query_handlers_return (project region service : jsval)
    (options : GcpLogs.log_options) (format : GcpLogs.display_format) :
  ((exists p, list_projects listProjects = Normal p)
   /\ (exists p, create_project createProjectAndAttachBilling project = Normal p)
   /\ (exists p, list_services listServices project region = Normal p)
   /\ (exists p, get_service getService project region service = Normal p)
   /\ (exists p, get_log_resource_types getResourceTypes project = Normal p)
   /\ (exists p, get_logs getLogs stringify project options format = Normal p))
  (* validation errors *)
  /\ (~ project_id_accepted project ->
      create_project createProjectAndAttachBilling project
      = Normal (text_content
                  (str "Error: If provided, Project ID must be a non-empty string.")))
  /\ (is_string project = false ->
      list_services listServices project region
      = Normal (text_content
                  (str "Error: Project ID must be provided and be a non-empty string."))
      /\ get_service getService project region service
         = Normal (text_content (str "Error: Project ID must be provided."))
      /\ get_log_resource_types getResourceTypes project
         = Normal (text_content (str "Error: Project ID must be provided."))
      /\ get_logs getLogs stringify project options format
         = Normal (text_content (str "Error: Project ID must be provided.")))
  /\ (is_string project = true -> is_string service = false ->
      get_service getService project region service
      = Normal (text_content (str "Error: Service name must be provided.")))
  (* exceptions of the backend *)
  /\ (forall err, listProjects = Throw err ->
      list_projects listProjects
      = Normal (text_content (str "Error listing GCP projects: " ++ err_message err)))
  /\ (forall err, project_id_accepted project ->
      createProjectAndAttachBilling project = Throw err ->
      create_project createProjectAndAttachBilling project
      = Normal (text_content
                  (str "Error creating GCP project or attaching billing: "
                     ++ err_message err)))
  /\ (forall err, is_string project = true ->
      listServices project region = Throw err ->
      list_services listServices project region
      = Normal (text_content
                  (str "Error listing services for project " ++ to_string project
                     ++ str " (region " ++ to_string region ++ str "): "
                     ++ err_message err)))
  /\ (forall err, is_string project = true -> is_string service = true ->
      getService project region service = Throw err ->
      get_service getService project region service
      = Normal (text_content
                  (str "Error getting service " ++ to_string service
                     ++ str " in project " ++ to_string project
                     ++ str " (region " ++ to_string region ++ str "): "
                     ++ err_message err)))
  /\ (forall err, is_string project = true ->
      getResourceTypes project = Throw err ->
      get_log_resource_types getResourceTypes project
      = Normal (text_content
                  (str "Error getting resource types for project "
                     ++ to_string project ++ str ": " ++ err_message err)))
  /\ (forall err, is_string project = true ->
      getLogs project options = Throw err ->
      get_logs getLogs stringify project options format
      = Normal (text_content
                  (str "Error getting logs for project " ++ to_string project
                     ++ str ": " ++ err_message err))).
Proof.
  split; [repeat split |].
  - unfold list_projects. destruct listProjects; cbn; eauto.
  - unfold create_project. destruct (match project with VUndefined => _ | _ => _ end);
      [eauto |].
    destruct (createProjectAndAttachBilling project); cbn; eauto.
  - unfold list_services. destruct (is_string project); cbn; [| eauto].
    destruct (listServices project region); cbn; eauto.
  - unfold get_service. destruct (is_string project); cbn; [| eauto].
    destruct (is_string service); cbn; [| eauto].
    destruct (getService project region service) as [[d|]|]; cbn; eauto.
  - unfold get_log_resource_types. destruct (is_string project); cbn; [| eauto].
    destruct (getResourceTypes project); cbn; eauto.
  - unfold get_logs. destruct (is_string project); cbn; [| eauto].
    destruct (getLogs project options); cbn; eauto.
  - split; [| split; [| split; [| split; [| split; [| split; [| split; [| split]]]]]]].
    + intros H. unfold create_project, project_id_accepted in *.
      destruct project as [| | b | z | s | items | f c]; try reflexivity.
      * destruct H. left. reflexivity.
      * destruct (trim s) as [|c t] eqn:Hs; [reflexivity |].
        destruct H. right. exists s. split; [reflexivity | congruence].
    + intros Hp. unfold list_services, get_service, get_log_resource_types, get_logs.
      rewrite Hp. cbn [negb]. repeat split; reflexivity.
    + intros Hp Hs. unfold get_service. rewrite Hp, Hs. reflexivity.
    + intros err E. unfold list_projects. rewrite E. reflexivity.
    + intros err [-> | (s & -> & Hs)] E; unfold create_project.
      * rewrite E. reflexivity.
      * destruct (trim s) as [|c t]; [congruence |]. cbn [str_truthy negb].
        rewrite E. reflexivity.
    + intros err Hp E. unfold list_services. rewrite Hp, E. reflexivity.
    + intros err Hp Hs E. unfold get_service. rewrite Hp, Hs, E. reflexivity.
    + intros err Hp E. unfold get_log_resource_types. rewrite Hp, E. reflexivity.
    + intros err Hp E. unfold get_logs. rewrite Hp, E. reflexivity.
Qed.

(** C5, at the inputs where the code departs from it.  The handlers of
    the deploy tools throw on arguments of the wrong type or shape: an
    empty files array, files that are not an array, a project that is not
    a string.  The handlers of the query tools return an error payload for
    a project that is not a string. *)
Theorem deploy_handlers_throw (region service : jsval) :
  deploy_local_files deploy skipIamCheck_flag
    (VString (str "my-project")) region service (VArray [])
  = Throw (mkError Error (str "No files specified for deployment"))
  /\ deploy_file_contents deploy skipIamCheck_flag
       (VString (str "my-project")) region service (VArray [])
     = Throw (mkError Error (str "No files specified for deployment"))
  /\ deploy_file_contents_remote deploy skipIamCheck_flag
       (VString (str "my-project")) region service (VArray [])
     = Throw (mkError Error (str "Files must be specified"))
  /\ (forall project files, is_string project = false ->
        throws (deploy_local_files deploy skipIamCheck_flag project region service files)
        /\ throws (deploy_local_folder deploy skipIamCheck_flag project region service files)
        /\ throws (deploy_file_contents deploy skipIamCheck_flag project region service
                     files))
  /\ (forall project files, is_array files = false ->
        throws (deploy_local_files deploy skipIamCheck_flag project region service files)
        /\ throws (deploy_file_contents deploy skipIamCheck_flag project region service
                     files)
        /\ throws (deploy_file_contents_remote deploy skipIamCheck_flag project region
                     service files))
  /\ (forall project, is_string project = false ->
        list_services listServices project region
        = Normal (text_content
                    (str "Error: Project ID must be provided and be a non-empty string."))
        /\ get_service getService project region service
           = Normal (text_content (str "Error: Project ID must be provided."))
        /\ get_log_resource_types getResourceTypes project
           = Normal (text_content (str "Error: Project ID must be provided."))
        /\ (forall options format,
              get_logs getLogs stringify project options format
              = Normal (text_content (str "Error: Project ID must be provided.")))).
Proof.
  split; [reflexivity |]. split; [reflexivity |]. split; [reflexivity |].
  split; [| split].
  - intros project files Hp.
    unfold deploy_local_files, deploy_local_folder, deploy_file_contents, throws.
    rewrite Hp. cbn [negb]. repeat split; eexists; reflexivity.
  - intros project files Hf.
    unfold deploy_local_files, deploy_file_contents, deploy_file_contents_remote, throws.
    rewrite Hf. cbn [negb orb].
    destruct (is_string project); cbn [negb]; repeat split; eexists; reflexivity.
  - intros project Hp.
    unfold list_services, get_service, get_log_resource_types, get_logs.
    rewrite Hp. cbn [negb]. repeat split; reflexivity.
Qed.

End HandlerValidation.

(** ** Registration of the logging tools *)

Section Registration.

Import Tools Index.







End Registration.

Section Server.

Import Tools Index.

Lemma effective_project_truthy (env : option jsstring) (gcpInfo : option gcp_info) :
  has_project gcpInfo = true ->
  opt_truthy (or_opt env (if has_project gcpInfo
                          then match gcpInfo with Some i => project i | None => None end
                          else None)) = true.
Proof.
  intros H. rewrite H. unfold or_opt.
  destruct (opt_truthy env) eqn:E; [exact E |].
  destruct gcpInfo as [i|]; [exact H | discriminate H].
Qed.




End Server.

(** ** Splitting and trimming *)

Section Tokens.

Lemma split_nonempty (sep : char16) (s : jsstring) : split sep s <> [].
Proof.
  destruct s as [|c s]; simpl; [discriminate |].
  destruct (N.eqb c sep); [discriminate |].
  destruct (split sep s); discriminate.
Qed.

(** Joining the pieces with the separator gives the string back. *)
Lemma join_split (sep : char16) (s : jsstring) : join [sep] (split sep s) = s.
Proof.
  induction s as [|c s IH]; [reflexivity |].
  simpl split. destruct (N.eqb_spec c sep) as [-> | Hne].
  - pose proof (split_nonempty sep s) as Hs.
    destruct (split sep s) as [|w ws]; [congruence |].
    change (join [sep] ([] :: w :: ws)) with ([] ++ [sep] ++ join [sep] (w :: ws)).
    rewrite IH. reflexivity.
  - pose proof (split_nonempty sep s) as Hs.
    destruct (split sep s) as [|w ws]; [congruence |].
    destruct ws as [|w' ws].
    + simpl in *. rewrite IH. reflexivity.
    + change (join [sep] ((c :: w) :: w' :: ws))
        with (c :: (w ++ [sep] ++ join [sep] (w' :: ws))).
      change (join [sep] (w :: w' :: ws))
        with (w ++ [sep] ++ join [sep] (w' :: ws)) in IH.
      rewrite IH. reflexivity.
Qed.

(** No piece holds the separator. *)
Lemma split_pieces (sep : char16) (s piece : jsstring) :
  In piece (split sep s) -> ~ In sep piece.
Proof.
  revert piece. induction s as [|c s IH]; intros piece; simpl split.
  - intros [<- | []]. intros [].
  - destruct (N.eqb_spec c sep) as [-> | Hne].
    + intros [<- | Hin]; [intros [] | apply IH, Hin].
    + destruct (split sep s) as [|w ws]; simpl.
      * intros [<- | []]. intros [E | []]. congruence.
      * intros [<- | Hin].
        -- intros [E | Hw]; [congruence |]. apply (IH w); [left; reflexivity | exact Hw].
        -- apply IH. right. exact Hin.
Qed.

Lemma trimStart_spec (s : jsstring) :
  exists l, s = l ++ trimStart s
            /\ Forall (fun c => is_white c = true) l
            /\ match trimStart s with
               | c :: _ => is_white c = false
               | [] => True
               end.
Proof.
  induction s as [|c s (l & E & Hl & Hhead)]; simpl.
  - exists []. repeat split. constructor.
  - destruct (is_white c) eqn:Hc.
    + exists (c :: l). split; [simpl; congruence |].
      split; [constructor; assumption | exact Hhead].
    + exists []. split; [reflexivity |]. split; [constructor | exact Hc].
Qed.

Lemma trimStart_suffix_of_clean (s : jsstring) :
  match s with c :: _ => is_white c = false | [] => True end -> trimStart s = s.
Proof. destruct s as [|c s]; simpl; [reflexivity | intros ->; reflexivity]. Qed.

(** [trim] removes a run of white space at each end, and nothing else. *)
Lemma trim_spec (s : jsstring) :
  exists l r, s = l ++ trim s ++ r
              /\ Forall (fun c => is_white c = true) l
              /\ Forall (fun c => is_white c = true) r
              /\ match trim s with
                 | c :: _ => is_white c = false
                 | [] => True
                 end
              /\ match rev (trim s) with
                 | c :: _ => is_white c = false
                 | [] => True
                 end.
Proof.
  destruct (trimStart_spec s) as (l & E & Hl & Hhead).
  unfold trim, trimEnd.
  destruct (trimStart_spec (rev (trimStart s))) as (r' & E' & Hr' & Hlast).
  exists l, (rev r').
  assert (Es : trimStart s = rev (trimStart (rev (trimStart s))) ++ rev r').
  { rewrite <- rev_app_distr, <- E', rev_involutive. reflexivity. }
  split; [rewrite <- Es; exact E |].
  split; [exact Hl |].
  split; [apply Forall_rev, Hr' |].
  split; [| rewrite rev_involutive; exact Hlast].
  (* the first unit of the trimmed string is the first unit of [trimStart s] *)
  destruct (rev (trimStart (rev (trimStart s)))) as [|c t] eqn:Et; [exact I |].
  rewrite Es in Hhead. exact Hhead.
Qed.

(** X6.  The tokens of an option value are non-empty, hold no comma, and
    neither start nor end with white space. *)
Theorem parse_tool_list_clean (v t : jsstring) :
  In t (parse_tool_list v) ->
  t <> [] /\ ~ In comma t
  /\ (forall c rest, t = c :: rest -> is_white c = false)
  /\ (forall c rest, t = rest ++ [c] -> is_white c = false).
Proof.
  intros H. apply parse_tool_list_tokens in H.
  destruct H as (Hne & piece & Hin & ->).
  destruct (trim_spec piece) as (l & r & E & _ & _ & Hfirst & Hlast).
  split; [exact Hne |]. split.
  - intros Hc. apply (split_pieces comma v piece Hin).
    rewrite E. apply in_or_app. right. apply in_or_app. left. exact Hc.
  - split.
    + intros c rest Et. rewrite Et in Hfirst. exact Hfirst.
    + intros c rest Et. rewrite Et, rev_app_distr in Hlast. exact Hlast.
Qed.

End Tokens.

(** ** Further properties of the pipeline *)

Section Further.

Import JsDate GcpLogs Tools.

(** X1.  For a time range token whose start time is a date, the clause is
    [timestamp>="..."] with the ISO form of the instant [now] minus the
    amount times the length of the unit. *)
Theorem time_range_clause (now : Z) (s amount : jsstring) (u : char16) :
  time_token s amount u ->
  (Z.abs now <= max_time)%Z ->
  (- max_time <= now - digits_value amount * unit_ms u)%Z ->
  buildTimeRangeFilter now s
  = Normal (Some (str "timestamp>=" ++ dquote
                    ++ iso_string (now - digits_value amount * unit_ms u) ++ dquote)).
Proof. apply buildTimeRangeFilter_in_range. Qed.

Lemma token_2h : time_token (str "2h") (str "2") unit_h.
Proof.
  split; [reflexivity |]. split; [discriminate |].
  split; [repeat constructor | left; reflexivity].
Defined.

Lemma time_range_clause_witness :
  buildTimeRangeFilter 1762041600000 (str "2h")
  = Normal (Some (str "timestamp>=" ++ dquote ++ str "2025-11-01T22:00:00.000Z"
                    ++ dquote)).
Proof.
  refine (time_range_clause 1762041600000 (str "2h") (str "2") unit_h token_2h _ _).
  - vm_compute. discriminate.
  - vm_compute. discriminate.
Defined.

Lemma buildTimeRangeFilter_malformed_witness :
  buildTimeRangeFilter 1762041600000 (str "5x") = Normal None.
Proof.
  apply (buildTimeRangeFilter_malformed 1762041600000 (str "5x")).
  apply match_time_range_none. reflexivity.
Defined.

(** The time ranges of the examples, at 2025-11-02T00:00:00Z. *)
Example time_range_examples :
  buildTimeRangeFilter 1762041600000 (str "30m")
  = Normal (Some (str "timestamp>=" ++ dquote ++ str "2025-11-01T23:30:00.000Z" ++ dquote))
  /\ buildTimeRangeFilter 1762041600000 (str "7d")
     = Normal (Some (str "timestamp>=" ++ dquote ++ str "2025-10-26T00:00:00.000Z"
                       ++ dquote))
  /\ buildTimeRangeFilter 1762041600000 (str "abc") = Normal None
  /\ buildTimeRangeFilter 1762041600000 (str "1.5h") = Normal None
  /\ buildTimeRangeFilter 1762041600000 (str "2H") = Normal None
  /\ buildTimeRangeFilter 1762041600000 [] = Normal None.
Proof. repeat split; vm_compute; reflexivity. Qed.

Lemma parse_tool_list_clean_witness :
  str "get_service" <> [] /\ ~ In comma (str "get_service")
  /\ (forall c rest, str "get_service" = c :: rest -> is_white c = false)
  /\ (forall c rest, str "get_service" = rest ++ [c] -> is_white c = false).
Proof.
  apply (parse_tool_list_clean (str " list_services , get_service ,,") (str "get_service")).
  right. left. reflexivity.
Defined.

End Further.

(** ** Acceptance of a filter configuration *)

Section Acceptance.

Lemma valid_iff_no_offender (r : bool) (tools : list jsstring) :
  (forall n, In n tools -> In n (availableTools r))
  <-> forall n, ~ offending r tools n.
Proof.
  unfold offending. split.
  - intros H n [Hin Hout]. apply Hout, H, Hin.
  - intros H n Hin. destruct (includes (availableTools r) n) eqn:E.
    + apply includes_spec, E.
    + exfalso. apply (H n). split; [exact Hin | apply includes_false, E].
Qed.

Lemma createToolFilter_valid (e d : option (list jsstring)) (r : bool) :
  (forall n, ~ offending r (list_of e) n) ->
  (forall n, ~ offending r (list_of d) n) ->
  createToolFilter e d r = Normal (shouldRegisterTool e d).
Proof.
  intros He Hd. apply no_offender in He, Hd.
  unfold createToolFilter. rewrite He, Hd.
  destruct (list_nonempty e), (list_nonempty d); reflexivity.
Qed.

(** What [createToolFilter] throws is the error of one of the two lists. *)
Lemma createToolFilter_throw_form (e d : option (list jsstring)) (r : bool)
    (err : js_error) :
  createToolFilter e d r = Throw err ->
  exists flag names, err = mkError Error (invalid_message flag names r).
Proof.
  unfold createToolFilter, bind.
  destruct (list_nonempty e);
    [destruct (Nat.ltb 0 (length (invalid_names r (list_of e))));
       [intros [= <-]; eauto |] |];
    (destruct (list_nonempty d);
       [destruct (Nat.ltb 0 (length (invalid_names r (list_of d))));
          [intros [= <-]; eauto | discriminate] | discriminate]).
Qed.

(** X8.  [createToolFilter] returns a predicate exactly when every name of
    both lists is in the catalog of the mode; it throws otherwise. *)
Theorem createToolFilter_accepts_iff (e d : option (list jsstring)) (r : bool) :
  ((exists f, createToolFilter e d r = Normal f)
   <-> (forall n, In n (list_of e) -> In n (availableTools r))
       /\ (forall n, In n (list_of d) -> In n (availableTools r)))
  /\ (throws (createToolFilter e d r)
      <-> exists n, (In n (list_of e) \/ In n (list_of d))
                    /\ ~ In n (availableTools r)).
Proof.
  assert (Hacc : (exists f, createToolFilter e d r = Normal f)
                 <-> (forall n, In n (list_of e) -> In n (availableTools r))
                     /\ (forall n, In n (list_of d) -> In n (availableTools r))).
  { rewrite !valid_iff_no_offender. split.
    - intros (f & E). split; intros n Hn.
      + rewrite (createToolFilter_enabled_invalid e d r) in E by (exists n; exact Hn).
        discriminate E.
      + destruct (createToolFilter_rejects_names_any e d r) as (msg & E').
        * right. exists n. exact Hn.
        * congruence.
    - intros [He Hd]. eexists. apply createToolFilter_valid; assumption. }
  split; [exact Hacc |]. split.
  - intros (err & E).
    destruct (invalid_names r (list_of e)) as [|n l] eqn:Ee.
    + destruct (invalid_names r (list_of d)) as [|n l] eqn:Ed.
      * rewrite createToolFilter_valid in E by (apply no_offender; assumption).
        discriminate E.
      * assert (H : offending r (list_of d) n)
          by (apply invalid_names_spec; rewrite Ed; left; reflexivity).
        exists n. destruct H. auto.
    + assert (H : offending r (list_of e) n)
        by (apply invalid_names_spec; rewrite Ee; left; reflexivity).
      exists n. destruct H. auto.
  - intros (n & [Hin | Hin] & Hout);
      destruct (createToolFilter_rejects_names_any e d r) as (msg & E);
      try (exists (mkError Error msg); exact E).
    + left. exists n. split; assumption.
    + right. exists n. split; assumption.
Qed.

(** X9.  The message of every error of [createToolFilter] ends with the
    text of [getAvailableToolsList] for the mode. *)
Theorem createToolFilter_message_lists_tools (e d : option (list jsstring)) (r : bool)
    (err : js_error) :
  createToolFilter e d r = Throw err ->
  err_kind err = Error
  /\ exists prefix, err_message err = prefix ++ getAvailableToolsList r.
Proof.
  intros E. destruct (createToolFilter_throw_form e d r err E) as (flag & names & ->).
  split; [reflexivity |]. cbn [err_message]. unfold invalid_message, getAvailableToolsList.
  eexists. reflexivity.
Qed.

Lemma createToolFilter_message_lists_tools_witness :
  err_kind (mkError Error (invalid_message (str "--enabled-tools") [str "foo"] true))
  = Error
  /\ exists prefix,
       err_message (mkError Error
                      (invalid_message (str "--enabled-tools") [str "foo"] true))
       = prefix ++ getAvailableToolsList true.
Proof.
  exact (createToolFilter_message_lists_tools (Some [str "foo"]) None true _ eq_refl).
Defined.

Lemma remote_tools_are_local (n : jsstring) : In n REMOTE_TOOLS -> In n LOCAL_TOOLS.
Proof.
  intros Hn. apply includes_spec.
  assert (H : forallb (includes LOCAL_TOOLS) REMOTE_TOOLS = true) by reflexivity.
  rewrite forallb_forall in H. apply H, Hn.
Qed.

(** X5.  A configuration that [createToolFilter] accepts in remote mode is
    accepted in local mode too, with the same predicate: every tool of the
    remote catalog is in the local one. *)
Theorem remote_configuration_is_local (e d : option (list jsstring))
    (f : jsstring -> bool) :
  createToolFilter e d true = Normal f ->
  createToolFilter e d false = Normal f.
Proof.
  intros E. pose proof (createToolFilter_returns e d true f E) as ->.
  apply createToolFilter_valid; apply valid_iff_no_offender; intros n Hn;
    apply remote_tools_are_local.
  - destruct (includes REMOTE_TOOLS n) eqn:Hi; [apply includes_spec, Hi |].
    rewrite (createToolFilter_enabled_invalid e d true) in E; [discriminate E |].
    exists n. split; [exact Hn | apply includes_false, Hi].
  - destruct (includes REMOTE_TOOLS n) eqn:Hi; [apply includes_spec, Hi |].
    destruct (createToolFilter_rejects_names_any e d true) as (msg & E').
    + right. exists n. split; [exact Hn | apply includes_false, Hi].
    + congruence.
Qed.

Lemma remote_configuration_is_local_witness :
  createToolFilter (Some [str "deploy_file_contents"; str "list_services"]) None false
  = Normal (shouldRegisterTool
              (Some [str "deploy_file_contents"; str "list_services"]) None).
Proof.
  exact (remote_configuration_is_local
           (Some [str "deploy_file_contents"; str "list_services"]) None _ eq_refl).
Defined.

(** X10.  The two lists that [parseCliArgs] returns are never both
    non-empty, so the error [createToolFilter] throws for them holds every
    name, of either list, that is outside the catalog. *)
Theorem parsed_lists_exclusive (args : minimist_args) (cfg : cli_config) (r : bool) :
  parseCliArgs args = Normal cfg ->
  (list_of (enabledTools cfg) = [] \/ list_of (disabledTools cfg) = [])
  /\ ((exists n, offending r (list_of (enabledTools cfg)) n
                 \/ offending r (list_of (disabledTools cfg)) n) ->
      exists msg,
        createToolFilter (enabledTools cfg) (disabledTools cfg) r
        = Throw (mkError Error msg)
        /\ forall n, offending r (list_of (enabledTools cfg)) n
                     \/ offending r (list_of (disabledTools cfg)) n ->
                     occurs n msg).
Proof.
  intros Hparse.
  destruct (parseCliArgs_result args) as [[_ (msg & E)] | (_ & _ & E)];
    rewrite E in Hparse; [discriminate Hparse |]. clear E.
  destruct (list_nonempty (tool_list_of (arg_enabled_tools args))
            && list_nonempty (tool_list_of (arg_disabled_tools args))) eqn:Hboth;
    [discriminate Hparse |].
  injection Hparse as <-. cbn [enabledTools disabledTools].
  set (e := tool_list_of (arg_enabled_tools args)) in *.
  set (d := tool_list_of (arg_disabled_tools args)) in *.
  assert (Hex : list_of e = [] \/ list_of d = []).
  { apply andb_false_iff in Hboth.
    destruct Hboth as [H | H]; apply list_nonempty_false in H; auto. }
  split; [exact Hex |].
  intros (n0 & Hoff).
  destruct (invalid_names r (list_of e)) as [|m l] eqn:Ee.
  - pose proof (proj1 (no_offender _ _) Ee) as He.
    assert (Hd : exists n, offending r (list_of d) n).
    { destruct Hoff as [H | H]; [destruct (He n0 H) | exists n0; exact H]. }
    eexists. split; [apply createToolFilter_disabled_invalid; assumption |].
    intros n [H | H]; [destruct (He n H) |].
    apply invalid_message_names, invalid_names_spec, H.
  - assert (He : exists n, offending r (list_of e) n).
    { exists m. apply invalid_names_spec. rewrite Ee. left. reflexivity. }
    eexists. split; [apply createToolFilter_enabled_invalid; assumption |].
    intros n [H | H]; [apply invalid_message_names, invalid_names_spec, H |].
    exfalso. destruct Hex as [Hnil | Hnil].
    + destruct He as (k & Hk & _). rewrite Hnil in Hk. destruct Hk.
    + destruct H as [Hin _]. rewrite Hnil in Hin. destruct Hin.
Qed.

Lemma parsed_lists_exclusive_witness :
  list_of (Some [str "get_logs"; str "list_services"]) = [] \/ list_of None = [].
Proof.
  exact (proj1 (parsed_lists_exclusive
                  {| arg_enabled_tools :=
                       Some (arg_string (str "get_logs, list_services"));
                     arg_disabled_tools := None |}
                  {| enabledTools := Some [str "get_logs"; str "list_services"];
                     disabledTools := None |} false eq_refl)).
Defined.

End Acceptance.

(** ** What the server registers *)

Section Registered.

Import Tools Index.

Lemma register_if_filter (f : option (jsstring -> bool)) (name : jsstring) (s : server) :
  register_if f name s = s ++ filter (permits f) [name].
Proof.
  unfold register_if, tool. simpl. destruct (permits f name);
    [reflexivity | rewrite app_nil_r; reflexivity].
Qed.

Lemma registerTools_filter (s : server) (f : option (jsstring -> bool)) :
  registerTools s f = s ++ filter (permits f) local_tool_names.
Proof.
  unfold registerTools. rewrite !register_if_filter, <- !app_assoc.
  rewrite <- !filter_app. reflexivity.
Qed.

Lemma registerToolsRemote_filter (s : server) (project : option jsstring)
    (f : option (jsstring -> bool)) :
  registerToolsRemote s project f
  = if opt_truthy project
    then Normal (s ++ filter (permits f) remote_tool_names)
    else Throw (mkError Error no_project_message).
Proof.
  unfold registerToolsRemote. destruct (opt_truthy project); cbn [negb];
    [| reflexivity].
  rewrite !register_if_filter, <- !app_assoc, <- !filter_app. reflexivity.
Qed.

Lemma tool_names_NoDup (r : bool) : NoDup (tool_names r).
Proof.
  destruct r; repeat constructor; intros H; apply includes_spec in H; discriminate H.
Qed.

(** X11.  [registerTools] adds to the server the tools that the filter
    permits (all of them without filter) among its ten tools, in the order
    of its calls and each once.  [registerToolsRemote] does so for its six
    tools when the project id is set, and throws before registering a tool
    when it is not. *)
Theorem registerTools_registers (s : server) (f : option (jsstring -> bool)) :
  registerTools s f = s ++ filter (permits f) local_tool_names
  /\ NoDup (registerTools [] f)
  /\ registerTools [] None = local_tool_names
  /\ (forall project,
        registerToolsRemote s project f
        = if opt_truthy project
          then Normal (s ++ filter (permits f) remote_tool_names)
          else Throw (mkError Error no_project_message))
  /\ NoDup (filter (permits f) remote_tool_names).
Proof.
  split; [apply registerTools_filter |].
  split; [rewrite registerTools_filter; apply NoDup_filter, (tool_names_NoDup false) |].
  split; [reflexivity |].
  split; [intros project; apply registerToolsRemote_filter |].
  apply NoDup_filter, (tool_names_NoDup true).
Qed.

(** [getServer] in terms of the parsed lists and the mode. *)
Lemma getServer_eq (p : process) (gcpInfo : option gcp_info) :
  getServer p gcpInfo
  = match parseCliArgs (argv p) with
    | Throw _ => Exit 1
    | Normal cfg =>
        match createToolFilter (enabledTools cfg) (disabledTools cfg)
                (remote_mode p gcpInfo) with
        | Throw _ => Exit 1
        | Normal f => Serving (filter f (tool_names (remote_mode p gcpInfo)))
        end
    end.
Proof.
  unfold getServer, remote_mode.
  destruct (parseCliArgs (argv p)) as [cfg | err]; [| reflexivity].
  destruct (createToolFilter _ _ _) as [f | err]; [| reflexivity].
  pose proof (effective_project_truthy (GOOGLE_CLOUD_PROJECT p) gcpInfo) as Hproj.
  destruct (shouldStartStdio p) eqn:Hs; cbn [negb andb orb].
  - rewrite registerTools_filter. reflexivity.
  - destruct (has_project gcpInfo) eqn:Hp; cbn [negb].
    + rewrite registerToolsRemote_filter, (Hproj eq_refl). reflexivity.
    + rewrite registerTools_filter. reflexivity.
Qed.

(** X12.  [getServer] ends in one of two ways.  It exits with code 1
    exactly when an option holds a value without a [split] method (the
    option is given more than once), when both lists are non-empty, or
    when a list names a tool outside the catalog of the mode; otherwise it
    serves the tools of the mode that the filter permits.  The error of
    [registerToolsRemote] for a missing project id cannot arise: the remote
    mode is chosen only with a project id.  With [GCP_STDIO] set the mode
    is local whatever the metadata. *)
Theorem getServer_outcome (p : process) (gcpInfo : option gcp_info) :
  let e := tool_list_of (arg_enabled_tools (argv p)) in
  let d := tool_list_of (arg_disabled_tools (argv p)) in
  let r := remote_mode p gcpInfo in
  (getServer p gcpInfo = Exit 1
   <-> unsplittable (arg_enabled_tools (argv p))
       \/ unsplittable (arg_disabled_tools (argv p))
       \/ (list_of e <> [] /\ list_of d <> [])
       \/ exists n, offending r (list_of e) n \/ offending r (list_of d) n)
  /\ (getServer p gcpInfo <> Exit 1 ->
      getServer p gcpInfo = Serving (filter (shouldRegisterTool e d) (tool_names r)))
  /\ (forall err, getServer p gcpInfo <> Failed err)
  /\ (opt_truthy (GCP_STDIO p) = true -> r = false)
  /\ (r = true <-> opt_truthy (GCP_STDIO p) = false
                   /\ has_project (startup_gcpInfo p) = true
                   /\ has_project gcpInfo = true).
Proof.
  intros e d r.
  set (exits := unsplittable (arg_enabled_tools (argv p))
                \/ unsplittable (arg_disabled_tools (argv p))
                \/ (list_of e <> [] /\ list_of d <> [])
                \/ exists n, offending r (list_of e) n \/ offending r (list_of d) n).
  assert (Hcases :
    exits /\ getServer p gcpInfo = Exit 1
    \/ ~ exits
       /\ getServer p gcpInfo
          = Serving (filter (shouldRegisterTool e d) (tool_names r))).
  { rewrite getServer_eq. fold r. unfold exits.
    destruct (parseCliArgs_result (argv p)) as [[Hu (msg & ->)] | (Hue & Hud & ->)].
    { left. split; [tauto | reflexivity]. }
    fold e d.
    destruct (list_nonempty e && list_nonempty d) eqn:Hboth.
    - left. split; [| reflexivity]. right. right. left. apply andb_true_iff in Hboth.
      destruct Hboth as [He Hd]. split; apply list_nonempty_spec; assumption.
    - cbn [enabledTools disabledTools].
      assert (Hnot : ~ (list_of e <> [] /\ list_of d <> [])).
      { intros [He Hd]. apply list_nonempty_spec in He, Hd.
        rewrite He, Hd in Hboth. discriminate Hboth. }
      destruct (createToolFilter e d r) as [f | err] eqn:E.
      + right. pose proof (createToolFilter_returns e d r f E) as ->.
        split; [| reflexivity].
        intros [H | [H | [H | (n & H)]]]; [tauto | tauto | tauto |].
        destruct (createToolFilter_rejects_names_any e d r) as (msg & E').
        * destruct H as [H | H]; [left | right]; exists n; exact H.
        * congruence.
      + left. split; [| reflexivity]. right. right. right.
        destruct (invalid_names r (list_of e)) as [|n l] eqn:Ee.
        * destruct (invalid_names r (list_of d)) as [|n l] eqn:Ed.
          -- rewrite createToolFilter_valid in E by (apply no_offender; assumption).
             discriminate E.
          -- exists n. right. apply invalid_names_spec. rewrite Ed. left. reflexivity.
        * exists n. left. apply invalid_names_spec. rewrite Ee. left. reflexivity. }
  split; [| split; [| split; [| split]]].
  - fold exits. destruct Hcases as [[H E] | [H E]]; split; intros H'; try assumption.
    + rewrite E in H'. discriminate H'.
    + destruct (H H').
  - destruct Hcases as [[H E] | [H E]]; intros H'; [destruct (H' E) | exact E].
  - intros err. destruct Hcases as [[_ E] | [_ E]]; rewrite E; discriminate.
  - intros Hs. subst r. unfold remote_mode, shouldStartStdio. rewrite Hs. reflexivity.
  - subst r. unfold remote_mode, shouldStartStdio.
    destruct (opt_truthy (GCP_STDIO p)), (has_project (startup_gcpInfo p)),
      (has_project gcpInfo); cbn; intuition congruence.
Qed.

(** An option given twice makes the server exit, whatever the names. *)
Example getServer_repeated_option :
  getServer
    {| GCP_STDIO := None; GOOGLE_CLOUD_PROJECT := None; startup_gcpInfo := None;
       argv := {| arg_enabled_tools :=
                    Some (arg_array [arg_string (str "list_services");
                                     arg_string (str "get_service")]);
                  arg_disabled_tools := None |} |}
    None
  = Exit 1.
Proof. reflexivity. Qed.

(** X13.  When [getServer] serves with a non-empty list of enabled tools,
    the tools it registers are exactly the tools of that list; with a list
    of disabled tools only, they are the tools of the mode that the list
    does not name. *)
Theorem getServer_registers_enabled (p : process) (gcpInfo : option gcp_info)
    (s : server) :
  getServer p gcpInfo = Serving s ->
  let e := tool_list_of (arg_enabled_tools (argv p)) in
  let d := tool_list_of (arg_disabled_tools (argv p)) in
  (list_of e <> [] -> forall n, In n s <-> In n (list_of e))
  /\ (list_of e = [] ->
      forall n, In n s <-> In n (tool_names (remote_mode p gcpInfo))
                          /\ ~ In n (list_of d)).
Proof.
  intros Hs e d. rewrite getServer_eq in Hs.
  destruct (parseCliArgs_result (argv p)) as [[_ (msg & E)] | (_ & _ & E)];
    rewrite E in Hs; [discriminate Hs |]. clear E. fold e d in Hs.
  destruct (list_nonempty e && list_nonempty d); [discriminate Hs |].
  cbn [enabledTools disabledTools] in Hs.
  destruct (createToolFilter e d (remote_mode p gcpInfo)) as [f | err] eqn:E;
    [| discriminate Hs].
  injection Hs as <-.
  pose proof (createToolFilter_returns _ _ _ _ E) as ->.
  split.
  - intros He n. rewrite filter_In.
    rewrite (proj1 (shouldRegisterTool_spec e d n) He). split; [tauto |].
    intros Hin. split; [| exact Hin].
    (* a tool of the list is in the catalog, hence among the tools of the mode *)
    destruct (includes (availableTools (remote_mode p gcpInfo)) n) eqn:Hi.
    + apply includes_spec in Hi.
      assert (Hsub : forallb (includes (tool_names (remote_mode p gcpInfo)))
                       (availableTools (remote_mode p gcpInfo)) = true)
        by (destruct (remote_mode p gcpInfo); reflexivity).
      rewrite forallb_forall in Hsub. apply includes_spec, Hsub, Hi.
    + rewrite (createToolFilter_enabled_invalid e d _) in E; [discriminate E |].
      exists n. split; [exact Hin | apply includes_false, Hi].
  - intros He n. rewrite filter_In.
    destruct (list_of d) as [|x l] eqn:Hd.
    + rewrite (proj2 (proj2 (shouldRegisterTool_spec e d n)) He Hd). simpl. tauto.
    + assert (Hne : list_of d <> []) by (rewrite Hd; discriminate).
      rewrite (proj1 (proj2 (shouldRegisterTool_spec e d n)) He Hne), Hd. tauto.
Qed.

(** The configuration of the README: the two enabled tools, and no other,
    are registered. *)
Lemma getServer_registers_enabled_witness :
  In (str "list_services") [str "list_services"; str "deploy_file_contents"]
  <-> In (str "list_services") [str "deploy_file_contents"; str "list_services"].
Proof.
  refine (proj1 (getServer_registers_enabled
                  {| GCP_STDIO := None; GOOGLE_CLOUD_PROJECT := None;
                     startup_gcpInfo := None;
                     argv := {| arg_enabled_tools :=
                                  Some (arg_string
                                          (str "deploy_file_contents,list_services"));
                                arg_disabled_tools := None |} |}
                  None [str "list_services"; str "deploy_file_contents"] eq_refl)
               _ (str "list_services")).
  discriminate.
Defined.

End Registered.

(** ** Rendering *)

Section Rendering.

Import JsDate GcpLogs.

Lemma padEnd_length (w : nat) (c : jsstring) : length c <= w -> length (padEnd w c) = w.
Proof. intros H. unfold padEnd. rewrite length_app, repeat_length. lia. Qed.

Lemma format_row_length (w0 w1 w2 w3 : nat) (c0 c1 c2 c3 : jsstring) :
  length c0 <= w0 -> length c1 <= w1 -> length c2 <= w2 -> length c3 <= w3 ->
  length (format_row [w0; w1; w2; w3] [c0; c1; c2; c3]) = w0 + w1 + w2 + w3 + 9.
Proof.
  intros H0 H1 H2 H3. unfold format_row, mapi. cbn [mapi_from nth join].
  rewrite !length_app, !padEnd_length by assumption. simpl. lia.
Qed.

Lemma header_fits (entries : list log_entry) (i : nat) :
  length (nth i headers []) <= column_width i entries.
Proof.
  unfold column_width.
  assert (H : Forall (fun k => k <= list_max
                (length (nth i headers [])
                 :: List.map (fun e => length (cell (row_of e) i)) entries))
              (length (nth i headers [])
               :: List.map (fun e => length (cell (row_of e) i)) entries)).
  { apply list_max_le. apply Nat.le_refl. }
  inversion H. assumption.
Qed.

Lemma column_width_bound (entries : list log_entry) (i b : nat) :
  length (nth i headers []) <= b ->
  (forall e, length (cell (row_of e) i) <= b) ->
  column_width i entries <= b.
Proof.
  intros Hh Hc. unfold column_width. apply list_max_le. constructor; [exact Hh |].
  apply Forall_forall. intros k Hk. apply in_map_iff in Hk.
  destruct Hk as (e & <- & _). apply Hc.
Qed.

(** X14.  Every line of the table has the same length: the header row, the
    rule and every row of an entry are as long as the four column widths
    and the three separators together.  The Timestamp column is between 9
    and 19 wide, the Message column between 7 and 103. *)
Theorem table_lines_aligned (entries : list log_entry) :
  entries <> [] ->
  let widths := colWidths (List.map row_of entries) in
  let L := nth 0 widths 0 + nth 1 widths 0 + nth 2 widths 0 + nth 3 widths 0 + 9 in
  formatLogsAsTable entries
  = join newline
      (format_row widths headers
       :: join (str "-+-") (List.map (repeat_char 45%N) widths)
       :: List.map (format_row widths) (List.map row_of entries))
  /\ length (format_row widths headers) = L
  /\ length (join (str "-+-") (List.map (repeat_char 45%N) widths)) = L
  /\ (forall e, In e entries -> length (format_row widths (row_of e)) = L)
  /\ 9 <= nth 0 widths 0 <= 19
  /\ 7 <= nth 3 widths 0 <= 103.
Proof.
  intros Hne widths L. subst L widths. rewrite colWidths_spec. cbn [nth].
  split; [unfold formatLogsAsTable; destruct entries; [congruence |];
          rewrite <- colWidths_spec; reflexivity |].
  split; [apply format_row_length;
          [apply (header_fits entries 0) | apply (header_fits entries 1)
           | apply (header_fits entries 2) | apply (header_fits entries 3)] |].
  split.
  { unfold repeat_char. cbn [List.map join]. rewrite !length_app, !repeat_length.
    simpl. lia. }
  split.
  { intros e Hin. unfold row_of.
    apply format_row_length.
    - apply (cell_fits entries e 0 Hin).
    - apply (cell_fits entries e 1 Hin).
    - apply (cell_fits entries e 2 Hin).
    - apply (cell_fits entries e 3 Hin). }
  split.
  - split; [apply (header_fits entries 0) |].
    apply column_width_bound; [simpl; lia |].
    intros e. unfold row_of, cell, substring0. cbn [nth]. rewrite length_firstn. lia.
  - split; [apply (header_fits entries 3) |].
    apply column_width_bound; [simpl; lia |].
    intros e. unfold row_of, cell, substring0. cbn [nth].
    rewrite length_app, length_firstn.
    destruct (Nat.ltb 100 (length (logData e)));
      [change (length (str "...")) with 3 | change (length (@nil char16)) with 0]; lia.
Qed.

Lemma table_lines_aligned_witness :
  length (format_row
            (colWidths
               (List.map row_of
                  [formatLogEntry {| meta_timestamp := Some 1762041600123%Z;
                                     meta_severity := Some (str "ERROR");
                                     meta_resource_type := None;
                                     meta_httpRequest := None;
                                     data := DataText (str "boom") |}]))
            headers)
  = 19 + 8 + 8 + 7 + 9.
Proof.
  exact (proj1 (proj2 (table_lines_aligned
    [formatLogEntry {| meta_timestamp := Some 1762041600123%Z;
                       meta_severity := Some (str "ERROR");
                       meta_resource_type := None;
                       meta_httpRequest := None;
                       data := DataText (str "boom") |}]
    ltac:(discriminate)))).
Defined.

Lemma join_head (sep x : jsstring) (l : list jsstring) (c : char16) (t : jsstring) :
  x = c :: t -> exists t', join sep (x :: l) = c :: t'.
Proof.
  intros ->. destruct l; simpl; eauto.
Qed.

Lemma text_starts_with_bracket (e : log_entry) (l : list log_entry) :
  exists t, join newline (List.map text_line (e :: l)) = 91%N :: t.
Proof.
  cbn [List.map]. eapply join_head. unfold text_line. reflexivity.
Qed.

Lemma table_starts_with_header (e : log_entry) (l : list log_entry) :
  exists t, formatLogsAsTable (e :: l) = 84%N :: t.
Proof.
  unfold formatLogsAsTable. cbn [length Nat.eqb]. eapply join_head.
  unfold format_row, mapi, headers. cbn [mapi_from join]. unfold padEnd. reflexivity.
Qed.

(** X4.  In the text and table formats the result is [No logs found.]
    exactly when the list of entries is empty: the text of a non-empty
    list starts with a bracket, its table with the header. *)
Theorem no_logs_iff_empty (stringify : list log_entry -> jsstring)
    (entries : list log_entry) :
  (formatLogsForDisplay stringify entries FormatText = no_logs <-> entries = [])
  /\ (formatLogsForDisplay stringify entries FormatTable = no_logs <-> entries = [])
  /\ formatLogsForDisplay stringify [] FormatJson = no_logs.
Proof.
  split; [| split; [| reflexivity]].
  - split; [| intros ->; reflexivity].
    destruct entries as [|e l]; [reflexivity |].
    unfold formatLogsForDisplay. cbn [length Nat.eqb].
    destruct (text_starts_with_bracket e l) as (t & ->). discriminate.
  - split; [| intros ->; reflexivity].
    destruct entries as [|e l]; [reflexivity |].
    unfold formatLogsForDisplay. cbn [length Nat.eqb].
    destruct (table_starts_with_header e l) as (t & ->). discriminate.
Qed.

End Rendering.

(** ** Errors in the handlers *)

Section HandlerErrors.

Import GcpLogs Tools.

Lemma filterQuery_time_range_error (now : Z) (o : log_options) (tr : jsstring)
    (err : js_error) :
  timeRange o = Some tr -> buildTimeRangeFilter now tr = Throw err ->
  filterQuery now o = Throw err.
Proof.
  intros Htr Hb. unfold filterQuery. rewrite Htr, Hb.
  destruct tr as [|c tr]; [discriminate Hb | reflexivity].
Qed.

(** X16.  When the time range makes [buildTimeRangeFilter] throw, the
    handlers of [get_logs] return the payload
    [Error getting logs for project <project>: <message>], whatever the
    logging backend would answer: the query is not sent. *)
Theorem get_logs_time_range_error
    (getEntries : request_options -> completion entries_response)
    (stringify : list log_entry -> jsstring) (now : Z) (project : jsstring)
    (o : log_options) (format : display_format) (tr : jsstring) (err : js_error) :
  timeRange o = Some tr ->
  buildTimeRangeFilter now tr = Throw err ->
  get_logs (fun _ options => getLogs getEntries now options) stringify
    (VString project) o format
  = Normal (text_content (str "Error getting logs for project " ++ project
                            ++ str ": " ++ err_message err))
  /\ get_logs_remote project (fun _ options => getLogs getEntries now options)
       stringify o format
     = Normal (text_content (str "Error getting logs for project " ++ project
                               ++ str ": " ++ err_message err)).
Proof.
  intros Htr Hb.
  assert (E : getLogs getEntries now o = Throw err).
  { unfold getLogs, requestOptions.
    rewrite (filterQuery_time_range_error now o tr err Htr Hb). reflexivity. }
  unfold get_logs, get_logs_remote. cbn [is_string negb]. rewrite E. split; reflexivity.
Qed.

Lemma get_logs_time_range_error_witness :
  get_logs (fun _ options => getLogs (fun _ => Normal {| entries := [];
                                                         api_nextPageToken := None |})
                               1762041600000 options)
    (fun _ => []) (VString (str "my-project"))
    {| filter := None; resourceType := None; severity := None;
       timeRange := Some (str "10000000000h"); limit := None; orderBy := None;
       pageToken := None |} FormatText
  = Normal (text_content
              (str "Error getting logs for project my-project: Invalid time value")).
Proof.
  exact (proj1 (get_logs_time_range_error
                  (fun _ => Normal {| entries := []; api_nextPageToken := None |})
                  (fun _ => []) 1762041600000 (str "my-project")
                  {| filter := None; resourceType := None; severity := None;
                     timeRange := Some (str "10000000000h"); limit := None;
                     orderBy := None; pageToken := None |} FormatText
                  (str "10000000000h")
                  (mkError RangeError (str "Invalid time value")) eq_refl eq_refl)).
Defined.

Section Deploy.

Variable deploy : deploy_request -> completion jsstring.
Variable flag : bool.

Lemma check_contents_spec (files : list jsval) :
  (check_contents files = Normal tt /\ all_have_content files)
  \/ (throws (check_contents files) /\ ~ all_have_content files).
Proof.
  unfold all_have_content. induction files as [|file rest IH]; cbn [check_contents].
  - left. split; [reflexivity | intros ? []].
  - destruct file as [| | b | z | s | items | f c]; cbn;
      try (right; split; [eexists; reflexivity |];
           intros H; destruct (H _ (or_introl eq_refl)) as (f' & c' & E & _);
           discriminate E).
    destruct (truthy c) eqn:Hc; cbn.
    + destruct IH as [[E H] | [E H]].
      * left. split; [exact E |].
        intros file [<- | Hin]; [exists f, c; split; [reflexivity | exact Hc] |].
        apply H, Hin.
      * right. split; [exact E |]. intros H'. apply H. intros file Hin. apply H'. auto.
    + right. split; [eexists; reflexivity |].
      intros H. destruct (H _ (or_introl eq_refl)) as (f' & c' & [= <- <-] & Hc').
      rewrite Hc in Hc'. discriminate Hc'.
Qed.

(** X17.  The handlers of the deploy tools throw exactly when the
    validation of their arguments fails: a project that is not a string, a
    files argument that is not a non-empty array, a file without content, a
    folder path that is not a string with more than white space.  With
    valid arguments they return a payload, whatever [deploy] does. *)
Theorem deploy_handlers_throw_iff (project region service files folderPath : jsval) :
  (throws (deploy_local_files deploy flag project region service files)
   <-> is_string project = false \/ is_array files = false \/ items_of files = [])
  /\ (throws (deploy_local_folder deploy flag project region service folderPath)
      <-> is_string project = false \/ is_string folderPath = false
          \/ trim (to_string folderPath) = [])
  /\ (throws (deploy_file_contents deploy flag project region service files)
      <-> is_string project = false \/ is_array files = false \/ items_of files = []
          \/ ~ all_have_content (items_of files))
  /\ (throws (deploy_file_contents_remote deploy flag project region service files)
      <-> is_array files = false \/ items_of files = []
          \/ ~ all_have_content (items_of files)).
Proof.
  unfold throws. repeat split.
  - unfold deploy_local_files. intros (err & E).
    destruct (is_string project); cbn [negb] in *; [| auto].
    destruct (is_array files); cbn [negb] in *; [| auto].
    destruct (items_of files) as [|f l]; cbn [length Nat.eqb] in *; [auto |].
    destruct (deploy _); discriminate E.
  - unfold deploy_local_files. intros [H | [H | H]].
    + rewrite H. eexists. reflexivity.
    + rewrite H. destruct (is_string project); eexists; reflexivity.
    + rewrite H. destruct (is_string project), (is_array files); eexists; reflexivity.
  - unfold deploy_local_folder. intros (err & E).
    destruct (is_string project); cbn [negb] in *; [| auto].
    destruct (is_string folderPath); cbn [negb orb] in *; [| auto].
    destruct (trim (to_string folderPath)) as [|c t]; cbn [str_truthy negb] in *; [auto |].
    destruct (deploy _); discriminate E.
  - unfold deploy_local_folder. intros [H | [H | H]].
    + rewrite H. eexists. reflexivity.
    + rewrite H. destruct (is_string project); eexists; reflexivity.
    + rewrite H. destruct (is_string project), (is_string folderPath);
        eexists; reflexivity.
  - unfold deploy_file_contents. intros (err & E).
    destruct (is_string project); cbn [negb] in *; [| auto].
    destruct (is_array files); cbn [negb] in *; [| auto].
    destruct (items_of files) as [|f l] eqn:Hi; cbn [length Nat.eqb] in *; [auto |].
    destruct (check_contents_spec (f :: l)) as [[Ec _] | [_ Hc]]; [| auto].
    rewrite Ec in E. cbn [bind] in E. destruct (deploy _); discriminate E.
  - unfold deploy_file_contents. intros [H | [H | [H | H]]].
    + rewrite H. eexists. reflexivity.
    + rewrite H. destruct (is_string project); eexists; reflexivity.
    + rewrite H. destruct (is_string project), (is_array files); eexists; reflexivity.
    + destruct (is_string project); [| eexists; reflexivity].
      destruct (is_array files); [| eexists; reflexivity].
      destruct (Nat.eqb (length (items_of files)) 0); [eexists; reflexivity |].
      destruct (check_contents_spec (items_of files)) as [[_ Hc] | [(err & Ec) _]];
        [destruct (H Hc) |].
      rewrite Ec. eexists. reflexivity.
  - unfold deploy_file_contents_remote. intros (err & E).
    destruct (is_array files); cbn [negb orb] in *; [| auto].
    destruct (items_of files) as [|f l] eqn:Hi; cbn [length Nat.eqb] in *; [auto |].
    destruct (check_contents_spec (f :: l)) as [[Ec _] | [_ Hc]]; [| auto].
    rewrite Ec in E. cbn [bind] in E. destruct (deploy _); discriminate E.
  - unfold deploy_file_contents_remote. intros [H | [H | H]].
    + rewrite H. eexists. reflexivity.
    + rewrite H. destruct (is_array files); eexists; reflexivity.
    + destruct (is_array files); [| eexists; reflexivity].
      destruct (Nat.eqb (length (items_of files)) 0); [eexists; reflexivity |].
      destruct (check_contents_spec (items_of files)) as [[_ Hc] | [(err & Ec) _]];
        [destruct (H Hc) |].
      rewrite Ec. eexists. reflexivity.
Qed.

End Deploy.

End HandlerErrors.

(** ** Project and remote handlers *)

Section ProjectHandlers.

Import GcpLogs Tools.

(** X18.  The handler of [create_project] never returns its success
    message: the message reads [newProjectId], which is not declared, so
    when the backend has created the project the payload is the error text
    with [newProjectId is not defined].  Every payload of the handler is
    the validation error or starts with
    [Error creating GCP project or attaching billing: ]. *)
Theorem create_project_never_reports_success
    (createProjectAndAttachBilling : jsval -> completion jsval) (projectId : jsval) :
  (forall result,
     project_id_accepted projectId ->
     createProjectAndAttachBilling projectId = Normal result ->
     create_project createProjectAndAttachBilling projectId
     = Normal (text_content
                 (str "Error creating GCP project or attaching billing: "
                    ++ str "newProjectId is not defined")))
  /\ (exists t,
        create_project createProjectAndAttachBilling projectId
        = Normal (text_content t)
        /\ (t = str "Error: If provided, Project ID must be a non-empty string."
            \/ exists m,
                 t = str "Error creating GCP project or attaching billing: " ++ m))
  /\ (~ project_id_accepted projectId ->
      create_project createProjectAndAttachBilling projectId
      = Normal (text_content
                  (str "Error: If provided, Project ID must be a non-empty string."))).
Proof.
  unfold create_project, project_id_accepted. split; [| split].
  - intros result [-> | (s & -> & Hs)] E.
    + rewrite E. reflexivity.
    + destruct (trim s) as [|c t]; [congruence |]. cbn [str_truthy negb].
      rewrite E. reflexivity.
  - destruct (match projectId with VUndefined => _ | _ => _ end).
    + eexists. split; [reflexivity | left; reflexivity].
    + destruct (createProjectAndAttachBilling projectId); cbn [bind try_catch];
        eexists; (split; [reflexivity | right; eexists; reflexivity]).
  - intros H.
    destruct projectId as [| | b | z | s | items | fields]; try reflexivity.
    + destruct H. left. reflexivity.
    + destruct (trim s) as [|c t] eqn:Hs; [reflexivity |].
      destruct H. right. exists s. split; [reflexivity | congruence].
Qed.

(** X19.  The handlers that [registerToolsRemote] gives to [list_services],
    [get_service], [get_logs] and [get_log_resource_types] return a payload
    whatever the arguments and the backend: no exception leaves them.  The
    error text of [list_services] names the region of the server, not the
    region of the call. *)
Theorem remote_query_handlers_return (currentProject currentRegion : jsstring)
    (listServices : jsval -> jsval -> completion (list service_info))
    (getService : jsval -> jsval -> jsval -> completion (option service_info))
    (getResourceTypes : jsval -> completion (list jsstring))
    (getLogs : jsval -> log_options -> completion logs_result)
    (stringify : list log_entry -> jsstring)
    (region service : jsval) (o : log_options) (format : display_format) :
  (exists p, list_services_remote currentProject currentRegion listServices region
             = Normal p)
  /\ (exists p, get_service_remote currentProject currentRegion getService region service
                = Normal p)
  /\ (exists p, get_logs_remote currentProject getLogs stringify o format = Normal p)
  /\ (exists p, get_log_resource_types_remote currentProject getResourceTypes = Normal p)
  /\ (forall err, listServices (VString currentProject) region = Throw err ->
        list_services_remote currentProject currentRegion listServices region
        = Normal (text_content
                    (str "Error listing services for project " ++ currentProject
                       ++ str " (region " ++ currentRegion ++ str "): "
                       ++ err_message err))).
Proof.
  repeat split.
  - unfold list_services_remote. destruct (listServices _ _); cbn; eauto.
  - unfold get_service_remote. destruct (is_string service); cbn [negb]; [| eauto].
    destruct (getService _ _ _) as [[d|]|]; cbn; eauto.
  - unfold get_logs_remote. destruct (getLogs _ _); cbn; eauto.
  - unfold get_log_resource_types_remote. destruct (getResourceTypes _); cbn; eauto.
  - intros err E. unfold list_services_remote. rewrite E. reflexivity.
Qed.

End ProjectHandlers.

(** ** The paging loop without an end *)

Section Paging.

Import Tools.

Variable request : Type.

Lemma fetch_pages_endless (backend : Type)
    (getServiceLogs : backend -> jsval -> jsval -> jsval -> option request
                      -> completion (log_page request) * backend)
    (project region service : jsval) :
  (forall b ro, exists page b',
      getServiceLogs b project region service ro = (Normal page, b')
      /\ next_requestOptions page <> None) ->
  forall fuel b acc ro,
    fetch_pages getServiceLogs fuel b project region service acc ro = None.
Proof.
  intros H fuel. induction fuel as [|fuel IH]; intros b acc ro; [reflexivity |].
  cbn [fetch_pages]. destruct (H b ro) as (page & b' & -> & Hnext).
  destruct (next_requestOptions page) as [next|] eqn:E; [| congruence].
  apply IH.
Qed.

(** X20.  The loop of [get_service_log] has no bound of its own: as long
    as every page of the backend comes with request options for a next
    page, the handler does not return, however many pages it has
    fetched. *)
Theorem get_service_log_no_page_cap (backend : Type)
    (getServiceLogs : backend -> jsval -> jsval -> jsval -> option request
                      -> completion (log_page request) * backend)
    (project region service : jsval) :
  (forall b ro, exists page b',
      getServiceLogs b project region service ro = (Normal page, b')
      /\ next_requestOptions page <> None) ->
  forall fuel b, get_service_log getServiceLogs fuel b project region service = None.
Proof.
  intros H fuel b. unfold get_service_log.
  rewrite (fetch_pages_endless backend getServiceLogs project region service H).
  reflexivity.
Qed.

Lemma fetch_pages_failing (err : js_error) (project region service : jsval)
    (init : list (option jsstring * request)) :
  forall fuel acc ro,
    length init < fuel ->
    fetch_pages (failing_getServiceLogs err) fuel (pages_with_next init)
      project region service acc ro
    = Some (Throw err, []).
Proof.
  induction init as [|[l r] init IH]; intros fuel acc ro Hfuel;
    (destruct fuel as [|fuel]; [inversion Hfuel |]).
  - reflexivity.
  - simpl in Hfuel. apply PeanoNat.lt_S_n in Hfuel.
    cbn [pages_with_next List.map fetch_pages failing_getServiceLogs
         next_requestOptions logs fst snd].
    apply (IH fuel _ _ Hfuel).
Qed.

(** X21.  When a call of the backend throws, the handler of
    [get_service_log] returns the error text only: the log texts of the
    pages fetched before are dropped. *)
Theorem get_service_log_backend_error (err : js_error) (project region service : jsval)
    (init : list (option jsstring * request)) (fuel : nat) :
  length init < fuel ->
  get_service_log (failing_getServiceLogs err) fuel (pages_with_next init)
    project region service
  = Some (Normal (text_content (service_log_error project region service err)), []).
Proof.
  intros Hfuel. unfold get_service_log.
  rewrite (fetch_pages_failing err project region service init fuel [] None Hfuel).
  reflexivity.
Qed.

End Paging.

Lemma get_service_log_no_page_cap_witness :
  Tools.get_service_log
    (fun (b : unit) (_ _ _ : Tools.jsval) (_ : option unit) =>
       (Normal {| Tools.logs := Some (str "line");
                  Tools.next_requestOptions := Some tt |}, b))
    1000 tt (Tools.VString (str "p")) (Tools.VString (str "r"))
    (Tools.VString (str "s"))
  = None.
Proof.
  apply (get_service_log_no_page_cap unit unit
           (fun (b : unit) (_ _ _ : Tools.jsval) (_ : option unit) =>
              (Normal {| Tools.logs := Some (str "line");
                         Tools.next_requestOptions := Some tt |}, b))).
  intros b ro. eexists. exists b. split; [reflexivity | discriminate].
Defined.

Lemma get_service_log_backend_error_witness :
  Tools.get_service_log
    (failing_getServiceLogs (mkError Error (str "quota exceeded"))) 2
    (pages_with_next [(Some (str "first page"), tt)])
    (Tools.VString (str "p")) (Tools.VString (str "r")) (Tools.VString (str "s"))
  = Some (Normal (Tools.text_content
                    (str "Error getting Logs for service s in project p (region r): quota exceeded")),
          []).
Proof.
  refine (get_service_log_backend_error unit (mkError Error (str "quota exceeded"))
            (Tools.VString (str "p")) (Tools.VString (str "r"))
            (Tools.VString (str "s")) [(Some (str "first page"), tt)] 2 _).
  simpl. lia.
Defined.

(** ** Parsing a list of tools again *)

Section RoundTrip.

Lemma split_clean (sep : char16) (x : jsstring) : ~ In sep x -> split sep x = [x].
Proof.
  induction x as [|c x IH]; intros H; [reflexivity |].
  simpl. destruct (N.eqb_spec c sep) as [-> | Hne].
  - destruct H. left. reflexivity.
  - rewrite IH; [reflexivity |]. intros Hin. apply H. right. exact Hin.
Qed.

Lemma split_app_sep (sep : char16) (x rest : jsstring) :
  ~ In sep x -> split sep (x ++ sep :: rest) = x :: split sep rest.
Proof.
  induction x as [|c x IH]; intros H.
  - simpl. rewrite N.eqb_refl. reflexivity.
  - simpl. destruct (N.eqb_spec c sep) as [-> | Hne].
    + destruct H. left. reflexivity.
    + rewrite IH; [reflexivity |]. intros Hin. apply H. right. exact Hin.
Qed.

(** Splitting a join of pieces without separator gives the pieces back. *)
Lemma split_join (sep : char16) (l : list jsstring) :
  l <> [] -> (forall x, In x l -> ~ In sep x) -> split sep (join [sep] l) = l.
Proof.
  induction l as [|x l IH]; intros Hne H; [congruence |].
  destruct l as [|y l].
  - simpl. apply split_clean, H. left. reflexivity.
  - change (join [sep] (x :: y :: l)) with (x ++ sep :: join [sep] (y :: l)).
    rewrite split_app_sep by (apply H; left; reflexivity).
    rewrite IH; [reflexivity | discriminate |].
    intros z Hz. apply H. right. exact Hz.
Qed.

Lemma trim_clean (t : jsstring) : clean_token t -> trim t = t.
Proof.
  intros (Hne & _ & Hfirst & Hlast). unfold trim, trimEnd.
  assert (E1 : trimStart t = t).
  { apply trimStart_suffix_of_clean. destruct t as [|c r]; [exact I |].
    apply (Hfirst c r eq_refl). }
  rewrite E1.
  assert (E2 : trimStart (rev t) = rev t).
  { apply trimStart_suffix_of_clean. destruct (rev t) as [|c r] eqn:Er; [exact I |].
    apply (Hlast c (rev r)). rewrite <- (rev_involutive t), Er. reflexivity. }
  rewrite E2. apply rev_involutive.
Qed.

Lemma parse_tool_list_clean_tokens (v t : jsstring) :
  In t (parse_tool_list v) -> clean_token t.
Proof.
  intros H. apply parse_tool_list_tokens in H.
  destruct H as (Hne & piece & Hin & ->).
  destruct (trim_spec piece) as (l & r & E & _ & _ & Hfirst & Hlast).
  split; [exact Hne |]. split.
  - intros Hc. apply (split_pieces comma v piece Hin).
    rewrite E. apply in_or_app. right. apply in_or_app. left. exact Hc.
  - split.
    + intros c rest Et. rewrite Et in Hfirst. exact Hfirst.
    + intros c rest Et. rewrite Et, rev_app_distr in Hlast. exact Hlast.
Qed.

Lemma filter_nonempty_id (tokens : list jsstring) :
  (forall t, In t tokens -> t <> []) ->
  filter (fun t => Nat.ltb 0 (length t)) tokens = tokens.
Proof.
  induction tokens as [|t ts IH]; intros H; [reflexivity |].
  cbn [filter]. destruct t as [|c t]; [destruct (H [] (or_introl eq_refl) eq_refl) |].
  change (Nat.ltb 0 (length (c :: t))) with true. cbv iota.
  rewrite IH; [reflexivity |]. intros t' Ht'. apply H. right. exact Ht'.
Qed.

(** X22.  A list of clean tokens, joined with commas, parses to the list
    itself; so parsing the join of a parsed list changes nothing. *)
Theorem parse_tool_list_round_trip :
  (forall tokens, (forall t, In t tokens -> clean_token t) ->
                  parse_tool_list (join [comma] tokens) = tokens)
  /\ (forall v, parse_tool_list (join [comma] (parse_tool_list v))
                = parse_tool_list v).
Proof.
  assert (H : forall tokens, (forall t, In t tokens -> clean_token t) ->
                             parse_tool_list (join [comma] tokens) = tokens).
  { intros tokens Hclean. destruct tokens as [|x l] eqn:E; [reflexivity |].
    rewrite <- E in *. unfold parse_tool_list.
    rewrite split_join.
    - assert (Em : List.map trim tokens = tokens).
      { rewrite <- (map_id tokens) at 2. apply map_ext_in.
        intros t Ht. apply trim_clean, Hclean, Ht. }
      rewrite Em. apply filter_nonempty_id.
      intros t Ht. apply (Hclean t Ht).
    - rewrite E. discriminate.
    - intros t Ht. apply (Hclean t Ht). }
  split; [exact H |].
  intros v. apply H. intros t Ht. apply (parse_tool_list_clean_tokens v t Ht).
Qed.

End RoundTrip.

(** ** The name of a service *)

Section ServiceName.

Import Tools.

Lemma split_at_separator (sep : char16) (a b : jsstring) :
  split sep (a ++ sep :: b) = split sep a ++ split sep b.
Proof.
  induction a as [|c a IH]; simpl.
  - rewrite N.eqb_refl. reflexivity.
  - destruct (N.eqb c sep); [rewrite IH; reflexivity |].
    rewrite IH. pose proof (split_nonempty sep a) as Hne.
    destruct (split sep a) as [|w ws]; [congruence | reflexivity].
Qed.

Lemma last_app_nonempty (l1 l2 : list jsstring) (d : jsstring) :
  l2 <> [] -> last (l1 ++ l2) d = last l2 d.
Proof.
  intros H. induction l1 as [|x l1 IH]; [reflexivity |].
  simpl. destruct (l1 ++ l2) eqn:E; [| exact IH].
  apply app_eq_nil in E. destruct E. congruence.
Qed.

(** X23.  The name [list_services] shows for a service is the part of its
    resource name after the last slash, and the whole name when it has no
    slash. *)
Theorem last_segment_of_resource_name (parent name : jsstring) :
  ~ In 47%N name ->
  last_segment (parent ++ str "/" ++ name) = name
  /\ last_segment name = name.
Proof.
  intros H. unfold last_segment. split.
  - change (parent ++ str "/" ++ name) with (parent ++ 47%N :: name).
    rewrite split_at_separator, last_app_nonempty by apply split_nonempty.
    rewrite split_clean by exact H. reflexivity.
  - rewrite split_clean by exact H. reflexivity.
Qed.

Lemma last_segment_of_resource_name_witness :
  last_segment (str "projects/p/locations/europe-west1/services" ++ str "/" ++ str "api")
  = str "api"
  /\ last_segment (str "api") = str "api".
Proof.
  apply (last_segment_of_resource_name
           (str "projects/p/locations/europe-west1/services") (str "api")).
  intros [H | [H | [H | []]]]; discriminate H.
Defined.

End ServiceName.

(** ** The first file without content *)

Section FileContents.

Import Tools.

Lemma check_contents_good (good rest : list jsval) :
  all_have_content good -> check_contents (good ++ rest) = check_contents rest.
Proof.
  intros Hgood. induction good as [|file good IH]; [reflexivity |].
  destruct (Hgood file (or_introl eq_refl)) as (f & c & -> & Hc).
  cbn. rewrite Hc. cbn. apply IH.
  intros file Hf. apply Hgood. right. exact Hf.
Qed.

(** X24.  The validation of the file contents stops at the first file
    without content and throws there; the files after it are not looked
    at.  For an object whose content is missing or falsy, and for any value
    that is not an object, the error names the file:
    [File <filename> must have content].  For [null] and [undefined] the
    error is the TypeError of reading their [content]. *)
Theorem check_contents_first_missing (good rest : list jsval) (bad : jsval) :
  all_have_content good ->
  lacks_content bad ->
  check_contents (good ++ bad :: rest) = Throw (content_error bad)
  /\ (forall filename content, bad = VObject filename content ->
        content_error bad
        = mkError Error (str "File " ++ to_string filename ++ str " must have content"))
  /\ (bad = VNull \/ bad = VUndefined -> err_kind (content_error bad) = TypeError).
Proof.
  intros Hgood Hbad. split; [| split].
  - rewrite (check_contents_good good (bad :: rest) Hgood).
    destruct bad as [| | b | z | s | items | f c]; try reflexivity.
    cbn in Hbad. cbn. rewrite Hbad. reflexivity.
  - intros f c ->. reflexivity.
  - intros [-> | ->]; reflexivity.
Qed.

Lemma check_contents_first_missing_witness :
  check_contents
    ([VObject (VString (str "index.js")) (VString (str "console.log(1)"))]
     ++ VObject (VString (str "package.json")) (VString [])
        :: [VObject (VString (str "README.md")) VUndefined])
  = Throw (mkError Error (str "File package.json must have content")).
Proof.
  refine (proj1 (check_contents_first_missing
                   [VObject (VString (str "index.js")) (VString (str "console.log(1)"))]
                   [VObject (VString (str "README.md")) VUndefined]
                   (VObject (VString (str "package.json")) (VString [])) _ eq_refl)).
  intros file [<- | []]. exists (VString (str "index.js")), (VString (str "console.log(1)")).
  split; reflexivity.
Defined.

(** A file that is [null]: reading its content throws. *)
Example check_contents_null_file :
  check_contents [VObject (VString (str "index.js")) (VString (str "x")); VNull]
  = Throw (mkError TypeError (str "Cannot read properties of null (reading 'content')")).
Proof. reflexivity. Qed.

End FileContents.
